(** * services/file_management.py: extension resolution and file download

    A shallow embedding of the two functions of [services/file_management.py],
    [get_extension_from_url] and [download_file], together with models of the
    library calls they make (str methods, [urllib.parse.urlparse],
    [os.path.splitext], [os.path.join], [mimetypes.guess_extension],
    [requests.head]/[requests.get], [os.makedirs], [open]/[write],
    [os.path.exists], [os.remove]).

    Conventions.
    - A Python [str] is a [string]; a character of type [ascii] stands for a
      code point in U+0000..U+00FF, and [str.lower] is modelled exactly on
      that range.
    - Indices are [Z], with [-1] for "not found", as [str.find] and
      [str.rfind] return them.
    - Effects are threaded through a state-and-exception monad [M] over a
      [World] (file system, log of issued HTTP requests, heap of dict
      objects); what the outside world answers is read from an [Env].
    - Calls to [logging] change nothing that is modelled and are left out.
    - The library functions are modelled on their CPython 3.11 sources
      ([urllib/parse.py], [genericpath.py], [posixpath.py], [mimetypes.py])
      and on [requests]' [Response.raise_for_status]. *)

From Stdlib Require Import String Ascii ZArith Lia Bool List.
From stdpp Require Import base option gmap sets strings list fin_maps.

Local Open Scope string_scope.
Local Open Scope Z_scope.

#[local] Arguments String.append : simpl nomatch.

(** ** Python [str] operations *)

Module Str.

Definition truthy (s : string) : bool :=
  match s with EmptyString => false | String _ _ => true end.

Definition len (s : string) : Z := Z.of_nat (String.length s).

Fixpoint drop (n : nat) (s : string) : string :=
  match n, s with
  | O, _ => s
  | S n', String _ s' => drop n' s'
  | S _, EmptyString => EmptyString
  end.

Fixpoint take (n : nat) (s : string) : string :=
  match n, s with
  | O, _ => EmptyString
  | S n', String a s' => String a (take n' s')
  | S _, EmptyString => EmptyString
  end.

(** The position a slice bound [i] denotes in [s]: negative bounds count
    from the end, and every bound is clamped to [0 .. len s]. *)
Definition bound (s : string) (i : Z) : nat :=
  if i <? 0 then Z.to_nat (Z.max 0 (len s + i)) else Z.to_nat i.

(** [s[i:]] *)
Definition slice_from (s : string) (i : Z) : string := drop (bound s i) s.

(** [s[:i]] *)
Definition slice_to (s : string) (i : Z) : string := take (bound s i) s.

(** [s[i:i+1]] for [0 <= i]: the one-character string at [i], or [""]
    past the end. *)
Definition at_ (s : string) (i : Z) : string :=
  take 1 (slice_from s i).

(** [s.startswith(p)] *)
Fixpoint startswith (p s : string) : bool :=
  match p, s with
  | EmptyString, _ => true
  | String a p', String b s' => if Ascii.eqb a b then startswith p' s' else false
  | String _ _, EmptyString => false
  end.

Fixpoint find_aux (sub s : string) (pos : Z) : Z :=
  if startswith sub s then pos
  else match s with
       | EmptyString => -1
       | String _ s' => find_aux sub s' (pos + 1)
       end.

(** [s.find(sub)]: index of the first occurrence, or [-1]. *)
Definition find (sub s : string) : Z := find_aux sub s 0.

(** [s.find(c, start)] for a one-character [c] and [0 <= start]. *)
Definition find_from (c : ascii) (s : string) (start : Z) : Z :=
  if len s <? start then -1
  else find_aux (String c EmptyString) (slice_from s start) start.

Fixpoint rfind_aux (c : ascii) (s : string) (pos last : Z) : Z :=
  match s with
  | EmptyString => last
  | String a s' => rfind_aux c s' (pos + 1) (if Ascii.eqb a c then pos else last)
  end.

(** [s.rfind(c)] for a one-character [c]: index of the last occurrence,
    or [-1]. *)
Definition rfind (c : ascii) (s : string) : Z := rfind_aux c s 0 (-1).

(** [c in s] for a one-character [c]. *)
Fixpoint contains (c : ascii) (s : string) : bool :=
  match s with
  | EmptyString => false
  | String a s' => Ascii.eqb a c || contains c s'
  end.

(** [s.replace(old, new, 1)]: the first occurrence of [old], if any, is
    replaced; an empty [old] matches at position 0. *)
Definition replace1 (s old new : string) : string :=
  let i := find old s in
  if i <? 0 then s
  else slice_to s i ++ new ++ slice_from s (i + len old).

(** [s.replace(c, "")] for a one-character [c]. *)
Fixpoint remove (c : ascii) (s : string) : string :=
  match s with
  | EmptyString => EmptyString
  | String a s' => if Ascii.eqb a c then remove c s' else String a (remove c s')
  end.

(** [s.split(c)[0]]: what precedes the first [c]. *)
Fixpoint before (c : ascii) (s : string) : string :=
  match s with
  | EmptyString => EmptyString
  | String a s' => if Ascii.eqb a c then EmptyString else String a (before c s')
  end.

(** [s.split(c, 1)] when [c in s]: both sides of the first [c]. *)
Fixpoint split1 (c : ascii) (s : string) : string * string :=
  match s with
  | EmptyString => (EmptyString, EmptyString)
  | String a s' =>
      if Ascii.eqb a c then (EmptyString, s')
      else let '(l, r) := split1 c s' in (String a l, r)
  end.

Definition code (c : ascii) : Z := Z.of_nat (nat_of_ascii c).

(** Upper-case letters among U+0000..U+00FF: A..Z, and U+00C0..U+00DE
    without the multiplication sign U+00D7. *)
Definition is_upper (c : ascii) : bool :=
  ((65 <=? code c) && (code c <=? 90))
  || ((192 <=? code c) && (code c <=? 222) && negb (code c =? 215)).

Definition lower_char (c : ascii) : ascii :=
  if is_upper c then ascii_of_nat (nat_of_ascii c + 32) else c.

(** [s.lower()] *)
Fixpoint lower (s : string) : string :=
  match s with
  | EmptyString => EmptyString
  | String a s' => String (lower_char a) (lower s')
  end.

(** No character of [s] is an upper-case letter. *)
Fixpoint is_lowercase (s : string) : bool :=
  match s with
  | EmptyString => true
  | String a s' => negb (is_upper a) && is_lowercase s'
  end.

(** [sub in s] *)
Definition has_substring (sub s : string) : bool := 0 <=? find sub s.

(** [s.lstrip(chars)] for the set of characters of code at most [bound]. *)
Fixpoint lstrip_upto (limit : Z) (s : string) : string :=
  match s with
  | EmptyString => EmptyString
  | String a s' => if code a <=? limit then lstrip_upto limit s' else s
  end.

(** [all(c in chars for c in s)] *)
Fixpoint all_in (chars s : string) : bool :=
  match s with
  | EmptyString => true
  | String a s' => contains a chars && all_in chars s'
  end.

(** [s.endswith(c)] for a one-character [c]. *)
Fixpoint endswith (c : ascii) (s : string) : bool :=
  match s with
  | EmptyString => false
  | String a EmptyString => Ascii.eqb a c
  | String _ s' => endswith c s'
  end.

End Str.

(** ** Exceptions and outcomes *)

(** Instances of Python's [Exception] that the modelled calls raise.
    [KeyboardInterrupt] and [SystemExit], which are no [Exception]s and no
    failures of a request or of a write, are outside the model. *)
Inductive Exception : Type :=
| ValueError (msg : string)
| HTTPError (status_code : Z) (url : string)
| RequestException (msg : string)
| OSError (msg : string).

(** What a call yields: a value, or a raised exception. *)
Inductive result (A : Type) : Type :=
| Ok (a : A)
| Raise (e : Exception).
Arguments Ok {A} a.
Arguments Raise {A} e.

Definition result_bind {A B : Type} (r : result A) (k : A -> result B) : result B :=
  match r with
  | Ok a => k a
  | Raise e => Raise e
  end.

(** ** [os.path] *)

Module OsPath.

(** The [while] loop of [genericpath._splitext]: starting at
    [filenameIndex], it runs for the [n = dotIndex - filenameIndex]
    positions before the last dot and answers whether one of them holds
    something other than a dot (the loop's early [return]). *)
Fixpoint splitext_scan (p : string) (filenameIndex : Z) (n : nat) : bool :=
  match n with
  | O => false
  | S n' =>
      if negb (String.eqb (Str.at_ p filenameIndex) ".") then true
      else splitext_scan p (filenameIndex + 1) n'
  end.

(** [os.path.splitext(p)] on POSIX ([sep = '/'], no [altsep],
    [extsep = '.']). *)
Definition splitext (p : string) : string * string :=
  let sepIndex := Str.rfind "/" p in
  let dotIndex := Str.rfind "." p in
  if (sepIndex <? dotIndex)
     && splitext_scan p (sepIndex + 1) (Z.to_nat (dotIndex - (sepIndex + 1)))
  then (Str.slice_to p dotIndex, Str.slice_from p dotIndex)
  else (p, EmptyString).

(** [os.path.join(a, b)] on POSIX. *)
Definition join (a b : string) : string :=
  if Str.startswith "/" b then b
  else if negb (Str.truthy a) || Str.endswith "/" a then a ++ b
  else a ++ "/" ++ b.

End OsPath.

(** ** [urllib.parse] *)

Module UrlParse.

Record ParseResult : Type := mkParseResult {
  scheme : string;
  netloc : string;
  path : string;
  params : string;
  query : string;
  fragment : string
}.

Definition uses_params : list string :=
  [""; "ftp"; "hdl"; "prospero"; "http"; "imap"; "https"; "shttp"; "rtsp";
   "rtspu"; "sip"; "sips"; "mms"; "sftp"; "tel"].

Definition scheme_chars : string :=
  "abcdefghijklmnopqrstuvwxyzABCDEFGHIJKLMNOPQRSTUVWXYZ0123456789+-.".

Definition ascii_letters : string :=
  "abcdefghijklmnopqrstuvwxyzABCDEFGHIJKLMNOPQRSTUVWXYZ".

(** [_splitnetloc(url, start)] *)
Definition _splitnetloc (url : string) (start : Z) : string * string :=
  let step (delim : Z) (c : ascii) : Z :=
    let wdelim := Str.find_from c url start in
    if 0 <=? wdelim then Z.min delim wdelim else delim in
  let delim := fold_left step ["/"; "?"; "#"]%char (Str.len url) in
  (Str.slice_to (Str.slice_from url start) (delim - start), Str.slice_from url delim).

(** [_splitparams(url)] *)
Definition _splitparams (url : string) : string * string :=
  if Str.contains "/" url then
    let i := Str.find_from ";" url (Str.rfind "/" url) in
    if i <? 0 then (url, EmptyString)
    else (Str.slice_to url i, Str.slice_from url (i + 1))
  else
    let i := Str.find ";" url in
    (Str.slice_to url i, Str.slice_from url (i + 1)).

Section Parser.

(** [_check_bracketed_netloc], which recent interpreters apply to a netloc
    holding both brackets: the message of the [ValueError] it raises, if
    it raises.  Older interpreters have no such check ([fun _ => None]). *)
Variable check_bracketed_netloc : string -> option string.

(** [urlsplit(url)] on a [str].  [_checknetloc] only rejects a netloc
    whose NFKC normal form brings in one of [/?#@:]; no code point of
    U+0000..U+00FF does, so it has no case here. *)
Definition urlsplit (url : string)
  : result (string * string * string * string * string) :=
  let url := Str.lstrip_upto 32 url in
  let url := fold_left (fun u b => Str.remove b u) ["009"; "013"; "010"]%char url in
  let i := Str.find ":" url in
  let '(scheme, url) :=
    if (0 <? i) && Str.all_in ascii_letters (Str.at_ url 0)
       && Str.all_in scheme_chars (Str.slice_to url i)
    then (Str.lower (Str.slice_to url i), Str.slice_from url (i + 1))
    else (EmptyString, url) in
  result_bind
    (if String.eqb (Str.slice_to url 2) "//" then
       let '(netloc, url) := _splitnetloc url 2 in
       if (Str.contains "[" netloc && negb (Str.contains "]" netloc))
          || (Str.contains "]" netloc && negb (Str.contains "[" netloc))
       then Raise (ValueError "Invalid IPv6 URL")
       else if Str.contains "[" netloc && Str.contains "]" netloc then
         match check_bracketed_netloc netloc with
         | Some msg => Raise (ValueError msg)
         | None => Ok (netloc, url)
         end
       else Ok (netloc, url)
     else Ok (EmptyString, url))
    (fun '(netloc, url) =>
       let '(url, fragment) :=
         if Str.contains "#" url then Str.split1 "#" url else (url, EmptyString) in
       let '(url, query) :=
         if Str.contains "?" url then Str.split1 "?" url else (url, EmptyString) in
       Ok (scheme, netloc, url, query, fragment)).

(** [urlparse(url)] *)
Definition urlparse (url : string) : result ParseResult :=
  result_bind (urlsplit url)
    (fun '(scheme, netloc, url, query, fragment) =>
       let '(url, params) :=
         if bool_decide (scheme ∈ uses_params) && Str.contains ";" url
         then _splitparams url
         else (url, EmptyString) in
       Ok (mkParseResult scheme netloc url params query fragment)).

End Parser.

End UrlParse.

(** ** The world outside the module *)

(** A dict object is a finite map from header names to values; dicts live
    on a heap and are passed by reference. *)
Definition loc : Type := positive.

(** [requests]: what is sent and what comes back. *)
Module Requests.

Inductive Method : Type := HEAD | GET.

Record Request : Type := mkRequest {
  method : Method;
  target : string;
  sent_headers : gmap string string
}.

(** A response: its status, its final URL, its headers (keyed by
    lower-cased name, as the case-insensitive [response.headers] reads
    them) and, for a streamed body, the chunks [iter_content] yields,
    followed by the exception it raises mid-stream, if any. *)
Record Response : Type := mkResponse {
  status_code : Z;
  url : string;
  headers : gmap string string;
  chunks : list (list Byte.byte);
  stream_error : option Exception
}.

(** [response.raise_for_status()]: an [HTTPError] for a 4xx or 5xx
    status, nothing otherwise. *)
Definition raise_for_status (response : Response) : result unit :=
  if (400 <=? status_code response) && (status_code response <? 500)
  then Raise (HTTPError (status_code response) (url response))
  else if (500 <=? status_code response) && (status_code response <? 600)
  then Raise (HTTPError (status_code response) (url response))
  else Ok tt.

End Requests.

(** What the environment answers during one call: process environment,
    the [mimetypes] table, the interpreter's bracketed-host check, the
    identifier [uuid.uuid4()] draws, the servers' replies, and the faults
    the operating system injects into directory creation, [open],
    [write] and the removal of a file. *)
Record Env : Type := mkEnv {
  environ : gmap string string;
  types_map_inv : gmap string (list string);
  check_bracketed_netloc : string -> option string;
  uuid4 : string;
  head_reply : string -> gmap string string -> result Requests.Response;
  get_reply : string -> gmap string string -> result Requests.Response;
  makedirs_fault : string -> option Exception;
  open_fault : string -> option Exception;
  write_fault : nat -> option Exception;
  remove_fault : string -> option Exception
}.

(** A path names a directory, a regular file with its content, or
    nothing.  Paths are compared as strings. *)
Inductive node : Type :=
| Dir
| File (content : list Byte.byte).

Record World : Type := mkWorld {
  fs : gmap string node;
  sent : list Requests.Request;
  heap : gmap loc (gmap string string)
}.

Definition set_fs (f : gmap string node -> gmap string node) (w : World) : World :=
  mkWorld (f (fs w)) (sent w) (heap w).

Definition set_heap
  (f : gmap loc (gmap string string) -> gmap loc (gmap string string)) (w : World) : World :=
  mkWorld (fs w) (sent w) (f (heap w)).

Definition log_request (r : Requests.Request) (w : World) : World :=
  mkWorld (fs w) (sent w ++ [r]) (heap w).

(** ** The monad of effects *)

Definition M (A : Type) : Type := World -> result A * World.

Definition ret {A : Type} (a : A) : M A := fun w => (Ok a, w).

Definition raise {A : Type} (e : Exception) : M A := fun w => (Raise e, w).

Definition bind {A B : Type} (m : M A) (k : A -> M B) : M B :=
  fun w =>
    match m w with
    | (Ok a, w') => k a w'
    | (Raise e, w') => (Raise e, w')
    end.

(** [try: m  except ... as e: h e] *)
Definition try_except {A : Type} (m : M A) (h : Exception -> M A) : M A :=
  fun w =>
    match m w with
    | (Ok a, w') => (Ok a, w')
    | (Raise e, w') => h e w'
    end.

Definition lift {A : Type} (r : result A) : M A := fun w => (r, w).

Notation "x <- m ;; k" := (bind m (fun x => k))
  (at level 100, m at next level, right associativity).
Notation "m ;;; k" := (bind m (fun _ => k))
  (at level 100, right associativity).

(** ** Dict objects *)

Definition deref (w : World) (l : loc) : gmap string string :=
  default ∅ (heap w !! l).

(** A dict display [{...}]: a new object. *)
Definition dict_new (d : gmap string string) : M loc :=
  fun w =>
    let l := fresh (dom (heap w)) in
    (Ok l, set_heap <[l := d]> w).

(** [d.update(src)]: the entries of [src] are written into [d]. *)
Definition dict_update (d src : loc) : M unit :=
  fun w => (Ok tt, set_heap <[d := deref w src ∪ deref w d]> w).

(** Truth value of an optional dict argument: [None] and the empty dict
    are false. *)
Definition dict_truthy (d : option loc) : M bool :=
  fun w =>
    (Ok (match d with
         | Some l => negb (bool_decide (deref w l = ∅))
         | None => false
         end), w).

(** ** Library calls with effects *)

(** [os.makedirs(name, exist_ok=True)].  The ancestors it creates on the
    way are not recorded: nothing in the module reads them. *)
Definition os_makedirs (E : Env) (name : string) : M unit :=
  fun w =>
    match makedirs_fault E name with
    | Some e => (Raise e, w)
    | None =>
        match fs w !! name with
        | Some (File _) => (Raise (OSError "FileExistsError"), w)
        | _ =>
            if Str.truthy name then (Ok tt, set_fs <[name := Dir]> w)
            else (Raise (OSError "FileNotFoundError"), w)
        end
    end.

(** [os.environ.get(key, default)] *)
Definition environ_get (E : Env) (key dflt : string) : string :=
  default dflt (environ E !! key).

(** [mimetypes.guess_all_extensions(type)] and
    [mimetypes.guess_extension(type)] *)
Definition guess_all_extensions (E : Env) (type : string) : list string :=
  default [] (types_map_inv E !! Str.lower type).

Definition guess_extension (E : Env) (type : string) : option string :=
  match guess_all_extensions E type with
  | [] => None
  | ext :: _ => Some ext
  end.

(** [requests.head(url, allow_redirects=True, headers=headers)] *)
Definition requests_head (E : Env) (url : string) (headers : loc) : M Requests.Response :=
  fun w =>
    let h := deref w headers in
    (head_reply E url h, log_request (Requests.mkRequest Requests.HEAD url h) w).

(** [requests.get(url, stream=True, headers=headers)] *)
Definition requests_get (E : Env) (url : string) (headers : loc) : M Requests.Response :=
  fun w =>
    let h := deref w headers in
    (get_reply E url h, log_request (Requests.mkRequest Requests.GET url h) w).

(** [open(p, 'wb')]: the file is created, or truncated. *)
Definition open_wb (E : Env) (p : string) : M unit :=
  fun w =>
    match fs w !! p with
    | Some Dir => (Raise (OSError "IsADirectoryError"), w)
    | _ =>
        match open_fault E p with
        | Some e => (Raise e, w)
        | None => (Ok tt, set_fs <[p := File []]> w)
        end
    end.

(** The [k]-th [f.write(chunk)] on the file opened at [p]. *)
Definition file_write (E : Env) (p : string) (k : nat) (chunk : list Byte.byte) : M unit :=
  fun w =>
    match write_fault E k with
    | Some e => (Raise e, w)
    | None =>
        (Ok tt,
         set_fs (fun f => match f !! p with
                          | Some (File content) => <[p := File (content ++ chunk)]> f
                          | _ => f
                          end) w)
    end.

(** [os.path.exists(p)] *)
Definition os_path_exists (p : string) : M bool :=
  fun w => (Ok (bool_decide (is_Some (fs w !! p))), w).

(** [os.remove(p)]: a regular file is removed, unless the operating
    system refuses; a directory and a missing path raise. *)
Definition os_remove (E : Env) (p : string) : M unit :=
  fun w =>
    match fs w !! p with
    | Some (File _) =>
        match remove_fault E p with
        | Some e => (Raise e, w)
        | None => (Ok tt, set_fs (delete p) w)
        end
    | Some Dir => (Raise (OSError "IsADirectoryError"), w)
    | None => (Raise (OSError "FileNotFoundError"), w)
    end.

(** ** [get_extension_from_url] *)

Definition USER_AGENT : string :=
  "Mozilla/5.0 (Windows NT 10.0; Win64; x64) AppleWebKit/537.36 (KHTML, like Gecko) Chrome/91.0.4472.124 Safari/537.36".

Definition default_headers : gmap string string := {[ "User-Agent" := USER_AGENT ]}.

(** The error of the last line of [get_extension_from_url]. *)
Definition undeterminable_extension (url : string) : Exception :=
  ValueError ("Could not determine file extension from URL: " ++ url).

(** The body of the [try]: [Some ext] where it returns [ext], [None]
    where it falls off its end. *)
Definition probe_content_type (E : Env) (url : string) : M (option string) :=
  headers <- dict_new default_headers ;;
  response <- requests_head E url headers ;;
  let content_type :=
    Str.before ";" (default "" (Requests.headers response !! "content-type")) in
  let ext := guess_extension E content_type in
  match ext with
  | Some ext => if Str.truthy ext then ret (Some (Str.lower ext)) else ret None
  | None => ret None
  end.

(** Lines 45-59: what runs when the path gave no extension.  The bare
    [except: pass] drops whatever the [try] raised. *)
Definition extension_from_content_type (E : Env) (url : string) : M string :=
  found <- try_except (probe_content_type E url) (fun _ => ret None) ;;
  match found with
  | Some ext => ret ext
  | None => raise (undeterminable_extension url)
  end.

Definition get_extension_from_url (E : Env) (url : string) : M string :=
  parsed_url <- lift (UrlParse.urlparse (check_bracketed_netloc E) url) ;;
  let path := UrlParse.path parsed_url in
  if Str.truthy path then
    let ext := Str.lower (snd (OsPath.splitext path)) in
    if Str.truthy ext then ret ext else extension_from_content_type E url
  else extension_from_content_type E url.

(** ** [download_file] *)

(** Lines 76-79: the rewrite of an external MinIO link. *)
Definition rewrite_url (E : Env) (url : string) : string :=
  let minio_external := environ_get E "S3_PUBLIC_URL" "http://78.46.146.79:9000" in
  let minio_internal := environ_get E "S3_ENDPOINT_URL" "http://minio:9000" in
  if Str.startswith minio_external url
  then Str.replace1 url minio_external minio_internal
  else url.

(** Line 83. *)
Definition local_filename (E : Env) (storage_path extension : string) : string :=
  OsPath.join storage_path (uuid4 E ++ extension).

(** The loop of lines 103-105; [k] counts the writes made so far. *)
Fixpoint write_chunks (E : Env) (p : string) (chunks : list (list Byte.byte)) (k : nat)
  : M unit :=
  match chunks with
  | [] => ret tt
  | chunk :: rest =>
      match chunk with
      | [] => write_chunks E p rest k
      | _ :: _ => file_write E p k chunk ;;; write_chunks E p rest (S k)
      end
  end.

(** Lines 102-105: the [with] block over the streamed body. *)
Definition write_body (E : Env) (p : string) (response : Requests.Response) : M unit :=
  open_wb E p ;;;
  write_chunks E p (Requests.chunks response) 0 ;;;
  match Requests.stream_error response with
  | Some e => raise e
  | None => ret tt
  end.

(** Lines 89-94: the default headers in a new dict, the caller's merged
    into it if there are any. *)
Definition build_headers (custom_headers : option loc) : M loc :=
  headers <- dict_new default_headers ;;
  merge <- dict_truthy custom_headers ;;
  (match custom_headers with
   | Some c => if merge then dict_update headers c else ret tt
   | None => ret tt
   end) ;;;
  ret headers.

(** Lines 89-108: the body of the [try]. *)
Definition download_attempt (E : Env) (url local : string) (custom_headers : option loc)
  : M string :=
  headers <- build_headers custom_headers ;;
  response <- requests_get E url headers ;;
  lift (Requests.raise_for_status response) ;;;
  write_body E local response ;;;
  ret local.

(** Lines 109-113: the handler.  Nothing catches what [os.remove]
    raises: it then leaves the handler in place of [e]. *)
Definition download_cleanup (E : Env) (local : string) (e : Exception) : M string :=
  present <- os_path_exists local ;;
  (if present then os_remove E local else ret tt) ;;;
  raise e.

Definition download_file (E : Env) (url storage_path : string) (custom_headers : option loc)
  : M string :=
  os_makedirs E storage_path ;;;
  let url := rewrite_url E url in
  extension <- get_extension_from_url E url ;;
  let local := local_filename E storage_path extension in
  try_except (download_attempt E url local custom_headers) (download_cleanup E local).

(** ** Vocabulary of the statements *)

(** The [content-type] the probe reads off a response, parameters cut. *)
Definition content_type_of (response : Requests.Response) : string :=
  Str.before ";" (default "" (Requests.headers response !! "content-type")).

(** The probe of [get_extension_from_url] as it appears in the log. *)
Definition head_request (url : string) : Requests.Request :=
  Requests.mkRequest Requests.HEAD url default_headers.

(** The world after the probe has been sent from [w]. *)
Definition probed (url : string) (w : World) : World :=
  log_request (head_request url)
    (set_heap <[fresh (dom (heap w)) := default_headers]> w).

(** The caller's headers laid over the default ones. *)
Definition outgoing_headers (w : World) (custom_headers : option loc)
  : gmap string string :=
  match custom_headers with
  | Some c => deref w c ∪ default_headers
  | None => default_headers
  end.

(** Every extension of the [mimetypes] table begins with the dot, as the
    ones [mimetypes] reads or ships do. *)
Definition types_dotted (E : Env) : Prop :=
  forall (type : string) (exts : list string) (ext : string),
    types_map_inv E !! type = Some exts -> ext ∈ exts -> Str.startswith "." ext = true.

(** What the resolver may hand back: a non-empty, lower-case string that
    begins with the dot. *)
Definition well_formed_extension (ext : string) : Prop :=
  ext <> EmptyString /\ Str.is_lowercase ext = true /\ Str.startswith "." ext = true.

(** The probe gives nothing: [requests.head] raises, or the content-type
    it reads has no extension in the table. *)
Definition probe_gives_nothing (E : Env) (url : string) : Prop :=
  match head_reply E url default_headers with
  | Raise _ => True
  | Ok response =>
      match guess_extension E (content_type_of response) with
      | Some ext => ext = EmptyString
      | None => True
      end
  end.

(** The GET of [download_file] as it appears in the log. *)
Definition get_request (url : string) (headers : gmap string string) : Requests.Request :=
  Requests.mkRequest Requests.GET url headers.

(** The world after lines 89-97 have run from [w]: the merged headers sit
    in a new dict and the GET is in the log. *)
Definition requested (url : string) (custom_headers : option loc) (w : World) : World :=
  log_request (get_request url (outgoing_headers w custom_headers))
    (set_heap <[fresh (dom (heap w)) := outgoing_headers w custom_headers]> w).

(** From [w] to [w'] every dict object kept its entries. *)
Definition keeps_dicts (w w' : World) : Prop :=
  forall (l : loc) (d : gmap string string), heap w !! l = Some d -> heap w' !! l = Some d.

(** From [w] to [w'] nothing but the file at [p] changed: no request was
    sent, no dict touched, every other path is as it was, and [p] is a
    directory after if and only if it was one before. *)
Definition touches_only (p : string) (w w' : World) : Prop :=
  sent w' = sent w
  /\ heap w' = heap w
  /\ (forall q : string, q <> p -> fs w' !! q = fs w !! q)
  /\ (fs w' !! p = Some Dir <-> fs w !! p = Some Dir).

(** A small [mimetypes] table, an environment whose servers give fixed
    answers and whose operating system injects no fault, and an empty
    world, for running the functions. *)
Definition sample_types : gmap string (list string) :=
  list_to_map [("image/jpeg", [".jpg"; ".jpe"; ".jpeg"]); ("text/html", [".html"; ".htm"])].

Definition sample_env (head get : result Requests.Response) : Env :=
  mkEnv ∅ sample_types (fun _ => None) "3f2b8c1e-5d4a-4e6f-9a7b-1c2d3e4f5a6b"
    (fun _ _ => head) (fun _ _ => get) (fun _ => None) (fun _ => None) (fun _ => None)
    (fun _ => None).

(** The same, on a system that refuses to remove files. *)
Definition undeletable_env (head get : result Requests.Response) : Env :=
  mkEnv ∅ sample_types (fun _ => None) "3f2b8c1e-5d4a-4e6f-9a7b-1c2d3e4f5a6b"
    (fun _ _ => head) (fun _ _ => get) (fun _ => None) (fun _ => None) (fun _ => None)
    (fun _ => Some (OSError "PermissionError")).

Definition sample_response (status : Z) (content_type : string) : Requests.Response :=
  Requests.mkResponse status "http://x/" {[ "content-type" := content_type ]}
    [[Byte.x01; Byte.x02]; []; [Byte.x03]] None.

(** A body that breaks off after its first chunk. *)
Definition broken_response : Requests.Response :=
  Requests.mkResponse 200 "http://x/a.jpg" {[ "content-type" := "image/jpeg" ]}
    [[Byte.x01; Byte.x02]] (Some (RequestException "ChunkedEncodingError")).

Definition unreachable : result Requests.Response :=
  Raise (RequestException "ConnectionError").

Definition empty_world : World := mkWorld ∅ [] ∅.

(** A world in which the caller holds a dict of headers at location 1. *)
Definition caller_headers : gmap string string :=
  <["Authorization" := "Bearer t"]> {[ "User-Agent" := "curl/8" ]}.

Definition caller_world : World := mkWorld ∅ [] {[ 1%positive := caller_headers ]}.

(** ** Vocabulary of the further statements *)




(** No extension of the [mimetypes] table holds a path separator. *)
Definition types_slashless (E : Env) : Prop :=
  forall (type : string) (exts : list string) (ext : string),
    types_map_inv E !! type = Some exts -> ext ∈ exts -> Str.contains "/" ext = false.

(** An environment whose [S3_PUBLIC_URL] is set, but empty. *)
Definition misconfigured_env : Env :=
  mkEnv {[ "S3_PUBLIC_URL" := EmptyString ]} sample_types (fun _ => None)
    "3f2b8c1e-5d4a-4e6f-9a7b-1c2d3e4f5a6b"
    (fun _ _ => unreachable) (fun _ _ => unreachable)
    (fun _ => None) (fun _ => None) (fun _ => None) (fun _ => None).

(** * Checks of the library models against the interpreter's answers *)

Example lower_PNG : Str.lower ".PNG" = ".png".
Proof. reflexivity. Qed.

Example replace1_first_only :
  Str.replace1 "http://a/http://a/x" "http://a" "http://b" = "http://b/http://a/x".
Proof. reflexivity. Qed.

Example replace1_empty_old : Str.replace1 "abc" "" "X" = "Xabc".
Proof. reflexivity. Qed.

Example rfind_examples : Str.rfind "." "/a.b/c.d" = 6 /\ Str.rfind "." "/abc" = -1.
Proof. split; reflexivity. Qed.

Example splitext_examples :
  OsPath.splitext "/x.PNG" = ("/x", ".PNG")
  /\ OsPath.splitext "/a.b/c" = ("/a.b/c", "")
  /\ OsPath.splitext "/a/.b" = ("/a/.b", "")
  /\ OsPath.splitext "/..." = ("/...", "")
  /\ OsPath.splitext "/a.." = ("/a.", ".")
  /\ OsPath.splitext "/file." = ("/file", ".").
Proof. repeat split; reflexivity. Qed.

Example join_examples :
  OsPath.join "/tmp/" "id.jpg" = "/tmp/id.jpg"
  /\ OsPath.join "/tmp" "id.jpg" = "/tmp/id.jpg"
  /\ OsPath.join "" "id.jpg" = "id.jpg".
Proof. repeat split; reflexivity. Qed.

Example urlparse_examples :
  let parse := UrlParse.urlparse (fun _ => None) in
  parse "http://x/file." = Ok (UrlParse.mkParseResult "http" "x" "/file." "" "" "")
  /\ parse "http://x" = Ok (UrlParse.mkParseResult "http" "x" "" "" "" "")
  /\ parse "http://x/a.jpg;p=1" = Ok (UrlParse.mkParseResult "http" "x" "/a.jpg" "p=1" "" "")
  /\ parse "http://x/a;b.c/d.e;f" = Ok (UrlParse.mkParseResult "http" "x" "/a;b.c/d.e" "f" "" "")
  /\ parse "HTTP://x/a.B?q=.z#f.g" = Ok (UrlParse.mkParseResult "http" "x" "/a.B" "" "q=.z" "f.g")
  /\ parse "a.b:c.d" = Ok (UrlParse.mkParseResult "a.b" "" "c.d" "" "" "")
  /\ parse "//h/p.q" = Ok (UrlParse.mkParseResult "" "h" "/p.q" "" "" "")
  /\ parse "x.y" = Ok (UrlParse.mkParseResult "" "" "x.y" "" "" "")
  /\ parse "http://[x/a.jpg" = Raise (ValueError "Invalid IPv6 URL")
  /\ parse "http://x]/a" = Raise (ValueError "Invalid IPv6 URL").
Proof. repeat split; vm_compute; reflexivity. Qed.

(** * Facts about the string operations *)

Section StrFacts.

Lemma append_assoc (a b c : string) : (a ++ b) ++ c = a ++ b ++ c.
Proof. induction a as [|x a IH]; simpl; [reflexivity | now rewrite IH]. Qed.

Lemma length_append (a b : string) :
  String.length (a ++ b) = (String.length a + String.length b)%nat.
Proof. induction a as [|x a IH]; simpl; [reflexivity | now rewrite IH]. Qed.

Lemma drop_append (p r : string) : Str.drop (String.length p) (p ++ r) = r.
Proof. induction p as [|x p IH]; simpl; [now destruct r | exact IH]. Qed.

Lemma take_append (p r : string) : Str.take (String.length p) (p ++ r) = p.
Proof. induction p as [|x p IH]; simpl; [reflexivity | now rewrite IH]. Qed.

Lemma startswith_append (p r : string) : Str.startswith p (p ++ r) = true.
Proof.
  induction p as [|x p IH]; simpl; [reflexivity |].
  now rewrite Ascii.eqb_refl.
Qed.

Lemma startswith_split (p s : string) :
  Str.startswith p s = true -> s = p ++ Str.drop (String.length p) s.
Proof.
  revert s; induction p as [|x p IH]; intros [|y s]; simpl; try discriminate;
    try reflexivity.
  destruct (Ascii.eqb x y) eqn:Exy; [|discriminate].
  apply Ascii.eqb_eq in Exy; subst y.
  intros H; f_equal; now apply IH.
Qed.

Lemma find_prefix (old s : string) : Str.startswith old s = true -> Str.find old s = 0.
Proof. intros H; unfold Str.find; destruct s; simpl in *; now rewrite H. Qed.

Lemma bound_nonneg (s : string) (n : nat) : Str.bound s (Z.of_nat n) = n.
Proof.
  unfold Str.bound.
  destruct (Z.ltb_spec (Z.of_nat n) 0); [lia | apply Nat2Z.id].
Qed.

(** When [s] starts with [old], [s.replace(old, new, 1)] swaps that
    leading occurrence and nothing else. *)
Lemma replace1_prefix (s old new : string) :
  Str.startswith old s = true ->
  Str.replace1 s old new = new ++ Str.drop (String.length old) s.
Proof.
  intros H; unfold Str.replace1.
  rewrite (find_prefix _ _ H).
  change (0 <? 0) with false; cbv iota.
  unfold Str.slice_to, Str.slice_from, Str.len.
  rewrite Z.add_0_l, (bound_nonneg s (String.length old)).
  reflexivity.
Qed.

Lemma find_aux_append (sub p : string) (pos : Z) :
  0 <= pos -> 0 <= Str.find_aux sub (p ++ sub) pos.
Proof.
  revert pos; induction p as [|x p IH]; intros pos Hpos.
  - simpl. pose proof (startswith_append sub EmptyString) as H.
    replace (sub ++ "") with sub in H
      by (clear; induction sub as [|c sub IHs]; simpl; [reflexivity | now rewrite <- IHs]).
    destruct sub; simpl in *; [assumption | rewrite H; assumption].
  - change ((String x p) ++ sub) with (String x (p ++ sub)).
    simpl. destruct (Str.startswith sub (String x (p ++ sub))); [assumption |].
    apply IH; lia.
Qed.

(** [url in prefix + url] *)
Lemma has_substring_append (p sub : string) : Str.has_substring sub (p ++ sub) = true.
Proof.
  unfold Str.has_substring, Str.find.
  apply Z.leb_le, find_aux_append; lia.
Qed.

Lemma lower_char_not_upper (c : ascii) : Str.is_upper (Str.lower_char c) = false.
Proof. destruct c as [[] [] [] [] [] [] [] []]; vm_compute; reflexivity. Qed.

Lemma is_lowercase_lower (s : string) : Str.is_lowercase (Str.lower s) = true.
Proof.
  induction s as [|c s IH]; simpl; [reflexivity |].
  now rewrite lower_char_not_upper, IH.
Qed.

Lemma lower_fixes_lowercase (s : string) : Str.is_lowercase s = true -> Str.lower s = s.
Proof.
  induction s as [|c s IH]; simpl; [reflexivity |].
  intros H; apply andb_true_iff in H as [Hc Hs].
  unfold Str.lower_char; apply negb_true_iff in Hc; rewrite Hc.
  now rewrite IH.
Qed.

Lemma truthy_lower (s : string) : Str.truthy (Str.lower s) = Str.truthy s.
Proof. now destruct s. Qed.

Lemma truthy_nonempty (s : string) : Str.truthy s = true <-> s <> EmptyString.
Proof. destruct s; simpl; split; congruence. Qed.

Lemma startswith_dot_lower (s : string) :
  Str.startswith "." s = true -> Str.startswith "." (Str.lower s) = true.
Proof.
  destruct s as [|c s]; [discriminate |].
  cbn [Str.startswith Str.lower].
  destruct (Ascii.eqb "." c) eqn:E; [|discriminate].
  apply Ascii.eqb_eq in E; subst c; reflexivity.
Qed.

Lemma rfind_aux_spec (c : ascii) (s : string) (pos last : Z) :
  Str.rfind_aux c s pos last = last
  \/ (pos <= Str.rfind_aux c s pos last
      /\ exists r, Str.drop (Z.to_nat (Str.rfind_aux c s pos last - pos)) s = String c r).
Proof.
  revert pos last; induction s as [|a s IH]; intros pos last; simpl; [now left |].
  destruct (IH (pos + 1) (if Ascii.eqb a c then pos else last)) as [H | [Hle [r Hr]]].
  - rewrite H. destruct (Ascii.eqb a c) eqn:E; [| now left].
    apply Ascii.eqb_eq in E; subst a. right; split; [lia |].
    rewrite Z.sub_diag; simpl; eauto.
  - right; split; [lia |]. exists r.
    replace (Z.to_nat (Str.rfind_aux c s (pos + 1) (if Ascii.eqb a c then pos else last) - pos))
      with (S (Z.to_nat (Str.rfind_aux c s (pos + 1) (if Ascii.eqb a c then pos else last)
                         - (pos + 1)))) by lia.
    exact Hr.
Qed.

Lemma rfind_range (c : ascii) (s : string) : -1 <= Str.rfind c s.
Proof.
  unfold Str.rfind. destruct (rfind_aux_spec c s 0 (-1)) as [H | [H _]]; lia.
Qed.

Lemma rfind_aux_append (c : ascii) (s1 s2 : string) (pos last : Z) :
  Str.rfind_aux c (s1 ++ s2) pos last
  = Str.rfind_aux c s2 (pos + Str.len s1) (Str.rfind_aux c s1 pos last).
Proof.
  revert pos last; induction s1 as [|a s1 IH]; intros pos last; simpl.
  - now rewrite Z.add_0_r.
  - rewrite IH. f_equal. unfold Str.len; simpl String.length. lia.
Qed.

Lemma rfind_aux_absent (c : ascii) (s : string) (pos last : Z) :
  Str.contains c s = false -> Str.rfind_aux c s pos last = last.
Proof.
  revert pos last; induction s as [|a s IH]; intros pos last; simpl; [reflexivity |].
  intros H; apply orb_false_iff in H as [Ha Hs].
  rewrite Ha; now apply IH.
Qed.

Lemma rfind_aux_endswith (c : ascii) (s : string) (pos last : Z) :
  Str.endswith c s = true -> Str.rfind_aux c s pos last = pos + Str.len s - 1.
Proof.
  revert pos last; induction s as [|a s IH]; intros pos last; [discriminate |].
  destruct s as [|b s].
  - simpl. intros ->. unfold Str.len; simpl; lia.
  - intros H. change (Str.endswith c (String a (String b s)))
      with (Str.endswith c (String b s)) in H.
    change (Str.rfind_aux c (String a (String b s)) pos last)
      with (Str.rfind_aux c (String b s) (pos + 1) (if Ascii.eqb a c then pos else last)).
    rewrite (IH _ _ H). unfold Str.len; simpl String.length; lia.
Qed.

End StrFacts.

(** * Facts about [os.path.splitext] *)

Section SplitextFacts.

Lemma splitext_empty : OsPath.splitext EmptyString = (EmptyString, EmptyString).
Proof. reflexivity. Qed.

(** A non-empty extension begins with the dot. *)
Lemma splitext_ext_dot (p : string) :
  snd (OsPath.splitext p) = EmptyString
  \/ Str.startswith "." (snd (OsPath.splitext p)) = true.
Proof.
  unfold OsPath.splitext.
  destruct (_ && _) eqn:Hc; [right | now left].
  apply andb_true_iff in Hc as [Hlt _]; apply Z.ltb_lt in Hlt.
  pose proof (rfind_range "/" p) as Hsep.
  cbn [snd]. unfold Str.slice_from, Str.bound.
  destruct (Z.ltb_spec (Str.rfind "." p) 0) as [Hneg | Hpos]; [lia |].
  unfold Str.rfind in *.
  destruct (rfind_aux_spec "." p 0 (-1)) as [H | [_ [r Hr]]]; [lia |].
  rewrite Z.sub_0_r in Hr. now rewrite Hr.
Qed.

Lemma splitext_ext_truthy_path (p : string) :
  snd (OsPath.splitext p) <> EmptyString -> Str.truthy p = true.
Proof. destruct p; [intros H; now elim H | reflexivity]. Qed.

Lemma contains_append (c : ascii) (a b : string) :
  Str.contains c (a ++ b) = Str.contains c a || Str.contains c b.
Proof.
  induction a as [|x a IH]; simpl; [reflexivity |].
  now rewrite IH, orb_assoc.
Qed.

Lemma at_append (dir : string) (a : ascii) (rest : string) :
  Str.at_ (dir ++ String a rest) (Str.len dir) = String a EmptyString.
Proof.
  unfold Str.at_, Str.slice_from, Str.len.
  now rewrite bound_nonneg, drop_append.
Qed.

Lemma splitext_scan_spec (name dir rest : string) :
  OsPath.splitext_scan (dir ++ name ++ rest) (Str.len dir) (String.length name)
  = negb (Str.all_in "." name).
Proof.
  revert dir; induction name as [|a name IH]; intros dir; [reflexivity |].
  cbn [String.length OsPath.splitext_scan Str.all_in Str.contains].
  change (String a name ++ rest) with (String a (name ++ rest)).
  rewrite at_append.
  replace (String.eqb (String a EmptyString) ".") with (Ascii.eqb "." a)
    by (cbn [String.eqb]; rewrite (Ascii.eqb_sym a "."); now destruct (Ascii.eqb "." a)).
  rewrite orb_false_r.
  destruct (Ascii.eqb "." a) eqn:E; [| reflexivity].
  cbn [negb andb].
  specialize (IH (dir ++ String a EmptyString)).
  rewrite append_assoc in IH. cbn [String.append] in IH.
  replace (Str.len (dir ++ String a EmptyString)) with (Str.len dir + 1) in IH
    by (unfold Str.len; rewrite length_append; simpl String.length; lia).
  exact IH.
Qed.

(** The extension of a path ending in a dot: the last segment [name ++ "."]
    gives ["."], unless [name] has nothing but dots. *)
Lemma splitext_trailing_dot (dir name : string) :
  dir = EmptyString \/ Str.endswith "/" dir = true ->
  Str.contains "/" name = false ->
  OsPath.splitext (dir ++ name ++ ".")
  = if Str.all_in "." name then (dir ++ name ++ ".", EmptyString)
    else (dir ++ name, ".").
Proof.
  intros Hdir Hname. unfold OsPath.splitext.
  assert (Hsep : Str.rfind "/" (dir ++ name ++ ".") = Str.len dir - 1).
  { unfold Str.rfind. rewrite rfind_aux_append.
    rewrite rfind_aux_absent by (rewrite contains_append, Hname; reflexivity).
    destruct Hdir as [-> | Hdir]; [reflexivity |].
    rewrite (rfind_aux_endswith _ _ _ _ Hdir); lia. }
  assert (Hdot : Str.rfind "." (dir ++ name ++ ".") = Str.len (dir ++ name)).
  { unfold Str.rfind. rewrite <- append_assoc, rfind_aux_append. reflexivity. }
  rewrite Hsep, Hdot.
  assert (Hlen : Str.len (dir ++ name) = Str.len dir + Z.of_nat (String.length name))
    by (unfold Str.len; rewrite length_append; lia).
  replace (Str.len dir - 1 <? Str.len (dir ++ name)) with true
    by (symmetry; apply Z.ltb_lt; lia).
  replace (Str.len dir - 1 + 1) with (Str.len dir) by lia.
  replace (Z.to_nat (Str.len (dir ++ name) - Str.len dir)) with (String.length name) by lia.
  rewrite splitext_scan_spec, andb_true_l.
  destruct (Str.all_in "." name); cbn [negb]; [reflexivity |].
  unfold Str.slice_to, Str.slice_from, Str.len.
  rewrite !bound_nonneg, <- append_assoc, take_append, drop_append.
  reflexivity.
Qed.

End SplitextFacts.

(** * [get_extension_from_url] *)

Section ExtensionResolver.

Variable E : Env.

Lemma deref_alloc (w : World) (d : gmap string string) :
  deref (set_heap <[fresh (dom (heap w)) := d]> w) (fresh (dom (heap w))) = d.
Proof. unfold deref, set_heap; cbn [heap]. now rewrite lookup_insert_eq. Qed.

Lemma extension_from_content_type_run (url : string) (w : World) :
  extension_from_content_type E url w
  = (match head_reply E url default_headers with
     | Raise _ => Raise (undeterminable_extension url)
     | Ok response =>
         match guess_extension E (content_type_of response) with
         | Some ext =>
             if Str.truthy ext then Ok (Str.lower ext)
             else Raise (undeterminable_extension url)
         | None => Raise (undeterminable_extension url)
         end
     end, probed url w).
Proof.
  unfold extension_from_content_type, try_except, probe_content_type, bind, dict_new,
    requests_head, ret, raise.
  rewrite deref_alloc. fold (head_request url). fold (probed url w).
  destruct (head_reply E url default_headers) as [response | e]; [| reflexivity].
  fold (content_type_of response).
  destruct (guess_extension E (content_type_of response)) as [ext |]; [| reflexivity].
  now destruct (Str.truthy ext).
Qed.

(** The three ways through the function. *)
Lemma get_extension_parse_error (url : string) (e : Exception) (w : World) :
  UrlParse.urlparse (check_bracketed_netloc E) url = Raise e ->
  get_extension_from_url E url w = (Raise e, w).
Proof. intros H; unfold get_extension_from_url, bind, lift; now rewrite H. Qed.

Lemma get_extension_from_path (url : string) (parsed : UrlParse.ParseResult) (w : World) :
  UrlParse.urlparse (check_bracketed_netloc E) url = Ok parsed ->
  snd (OsPath.splitext (UrlParse.path parsed)) <> EmptyString ->
  get_extension_from_url E url w
  = (Ok (Str.lower (snd (OsPath.splitext (UrlParse.path parsed)))), w).
Proof.
  intros Hp Hext; unfold get_extension_from_url, bind, lift; rewrite Hp.
  rewrite (splitext_ext_truthy_path _ Hext), truthy_lower.
  apply truthy_nonempty in Hext; now rewrite Hext.
Qed.

Lemma get_extension_from_probe (url : string) (parsed : UrlParse.ParseResult) (w : World) :
  UrlParse.urlparse (check_bracketed_netloc E) url = Ok parsed ->
  snd (OsPath.splitext (UrlParse.path parsed)) = EmptyString ->
  get_extension_from_url E url w
  = (match head_reply E url default_headers with
     | Raise _ => Raise (undeterminable_extension url)
     | Ok response =>
         match guess_extension E (content_type_of response) with
         | Some ext =>
             if Str.truthy ext then Ok (Str.lower ext)
             else Raise (undeterminable_extension url)
         | None => Raise (undeterminable_extension url)
         end
     end, probed url w).
Proof.
  intros Hp Hext; unfold get_extension_from_url, bind, lift; rewrite Hp, Hext.
  cbn [Str.lower Str.truthy].
  destruct (Str.truthy (UrlParse.path parsed)); apply extension_from_content_type_run.
Qed.

Lemma guess_extension_dotted (type ext : string) :
  types_dotted E -> guess_extension E type = Some ext -> Str.startswith "." ext = true.
Proof.
  intros Hd; unfold guess_extension, guess_all_extensions.
  destruct (types_map_inv E !! Str.lower type) as [exts |] eqn:Hl; cbn [default];
    [| discriminate].
  destruct exts as [| e exts]; [discriminate |].
  intros [= ->]. apply (Hd _ _ _ Hl). apply list_elem_of_here.
Qed.

End ExtensionResolver.

Lemma sample_types_dotted (head get : result Requests.Response) :
  types_dotted (sample_env head get).
Proof.
  intros type exts ext Hl Hin. cbn [sample_env types_map_inv] in Hl.
  unfold sample_types in Hl. cbn [list_to_map foldr uncurry] in Hl.
  apply lookup_insert_Some in Hl as [[_ <-] | [_ Hl]].
  - apply list_elem_of_In in Hin; cbn [In] in Hin.
    destruct Hin as [<- | [<- | [<- | []]]]; reflexivity.
  - apply lookup_insert_Some in Hl as [[_ <-] | [_ Hl]].
    + apply list_elem_of_In in Hin; cbn [In] in Hin.
      destruct Hin as [<- | [<- | []]]; reflexivity.
    + rewrite lookup_empty in Hl; discriminate.
Qed.

(** C5.  When the parsed path of the URL has a non-empty extension in the
    sense of [os.path.splitext], [get_extension_from_url] returns that
    extension lower-cased, dot included and whatever the case of the input,
    and leaves the world as it found it: no request is sent. *)
Theorem path_extension_is_returned_lowercased
  (E : Env) (url : string) (parsed : UrlParse.ParseResult) (w : World) :
  UrlParse.urlparse (check_bracketed_netloc E) url = Ok parsed ->
  snd (OsPath.splitext (UrlParse.path parsed)) <> EmptyString ->
  get_extension_from_url E url w
  = (Ok (Str.lower (snd (OsPath.splitext (UrlParse.path parsed)))), w)
  /\ Str.is_lowercase (Str.lower (snd (OsPath.splitext (UrlParse.path parsed)))) = true
  /\ sent (snd (get_extension_from_url E url w)) = sent w.
Proof.
  intros Hp Hext.
  rewrite (get_extension_from_path E url parsed w Hp Hext).
  repeat split. apply is_lowercase_lower.
Qed.

Lemma path_extension_is_returned_lowercased_witness :
  get_extension_from_url (sample_env unreachable unreachable) "http://x/a/b.PNG" empty_world
  = (Ok ".png", empty_world).
Proof.
  destruct (path_extension_is_returned_lowercased
              (sample_env unreachable unreachable) "http://x/a/b.PNG"
              (UrlParse.mkParseResult "http" "x" "/a/b.PNG" "" "" "") empty_world)
    as [H _].
  - vm_compute; reflexivity.
  - vm_compute; discriminate.
  - exact H.
Defined.

(** C3, as the code has it.  Provided the extensions of the [mimetypes]
    table begin with the dot: on a URL that [urlparse] rejects,
    [get_extension_from_url] raises the parser's own [ValueError] and does
    nothing else; on every other URL it either returns a non-empty,
    lower-case string beginning with the dot or raises the
    undeterminable-extension error. *)
Theorem extension_or_undeterminable (E : Env) (url : string) (w : World) :
  types_dotted E ->
  match UrlParse.urlparse (check_bracketed_netloc E) url with
  | Raise e => get_extension_from_url E url w = (Raise e, w)
  | Ok _ =>
      match fst (get_extension_from_url E url w) with
      | Ok ext => well_formed_extension ext
      | Raise e => e = undeterminable_extension url
      end
  end.
Proof.
  intros Hd.
  destruct (UrlParse.urlparse (check_bracketed_netloc E) url) as [parsed | e] eqn:Hp;
    [| now apply get_extension_parse_error].
  destruct (splitext_ext_dot (UrlParse.path parsed)) as [Hnone | Hdot].
  - rewrite (get_extension_from_probe E url parsed w Hp Hnone); cbn [fst].
    destruct (head_reply E url default_headers) as [response | e]; [| reflexivity].
    destruct (guess_extension E (content_type_of response)) as [ext |] eqn:Hg;
      [| reflexivity].
    destruct (Str.truthy ext) eqn:Ht; [| reflexivity].
    repeat split.
    + apply truthy_nonempty; now rewrite truthy_lower.
    + apply is_lowercase_lower.
    + apply startswith_dot_lower, (guess_extension_dotted E _ _ Hd Hg).
  - assert (Hext : snd (OsPath.splitext (UrlParse.path parsed)) <> EmptyString)
      by (intros H0; rewrite H0 in Hdot; discriminate).
    rewrite (get_extension_from_path E url parsed w Hp Hext); cbn [fst].
    repeat split.
    + apply truthy_nonempty; rewrite truthy_lower; now apply truthy_nonempty.
    + apply is_lowercase_lower.
    + now apply startswith_dot_lower.
Qed.

Lemma extension_or_undeterminable_witness :
  well_formed_extension ".html"
  /\ get_extension_from_url (sample_env unreachable unreachable) "http://[x/a.jpg" empty_world
     = (Raise (ValueError "Invalid IPv6 URL"), empty_world).
Proof.
  split.
  - exact (extension_or_undeterminable
             (sample_env (Ok (sample_response 200 "text/html; charset=utf-8")) unreachable)
             "http://x/download" empty_world (sample_types_dotted _ _)).
  - exact (extension_or_undeterminable
             (sample_env unreachable unreachable)
             "http://[x/a.jpg" empty_world (sample_types_dotted _ _)).
Defined.

(** C3 as stated fails: on a URL with an unbalanced bracket in its host the
    outcome is neither an extension nor the undeterminable-extension
    error, but the [ValueError] of [urlparse], raised at line 38 outside
    the [try]. *)
Lemma extension_or_undeterminable_counterexample :
  let outcome :=
    fst (get_extension_from_url (sample_env unreachable unreachable)
           "http://[x/a.jpg" empty_world) in
  outcome = Raise (ValueError "Invalid IPv6 URL")
  /\ outcome <> Raise (undeterminable_extension "http://[x/a.jpg")
  /\ forall ext : string, outcome <> Ok ext.
Proof.
  vm_compute. repeat split; intros; discriminate.
Qed.

(** C6, as the code has it.  When the parsed path is empty or has no
    extension, the HEAD probe is always sent; and if [requests.head] raises
    (whatever it raises) or the content-type it reads has no extension in
    the table, [get_extension_from_url] raises the undeterminable-extension
    error, whose message contains the URL: the probe's own exception never
    reaches the caller.  A response with a status outside 2xx is not an
    error of the probe: whatever the status of the answer, a content-type
    that the table maps to an extension makes the function return that
    extension lower-cased. *)
Theorem probe_failure_is_undeterminable
  (E : Env) (url : string) (parsed : UrlParse.ParseResult) (w : World) :
  UrlParse.urlparse (check_bracketed_netloc E) url = Ok parsed ->
  UrlParse.path parsed = EmptyString
  \/ snd (OsPath.splitext (UrlParse.path parsed)) = EmptyString ->
  snd (get_extension_from_url E url w) = probed url w
  /\ sent (probed url w) = (sent w ++ [head_request url])%list
  /\ (probe_gives_nothing E url ->
      fst (get_extension_from_url E url w) = Raise (undeterminable_extension url))
  /\ (exists msg : string,
        undeterminable_extension url = ValueError msg
        /\ Str.has_substring url msg = true)
  /\ forall (response : Requests.Response) (ext : string),
       head_reply E url default_headers = Ok response ->
       guess_extension E (content_type_of response) = Some ext ->
       ext <> EmptyString ->
       fst (get_extension_from_url E url w) = Ok (Str.lower ext).
Proof.
  intros Hp Hpath.
  assert (Hext : snd (OsPath.splitext (UrlParse.path parsed)) = EmptyString)
    by (destruct Hpath as [-> | H]; [reflexivity | exact H]).
  rewrite (get_extension_from_probe E url parsed w Hp Hext); cbn [fst snd].
  split; [reflexivity |]. split; [reflexivity |]. split; [| split].
  - unfold probe_gives_nothing.
    destruct (head_reply E url default_headers) as [response | e]; [| reflexivity].
    destruct (guess_extension E (content_type_of response)) as [ext |]; [| reflexivity].
    now intros ->.
  - eexists; split; [reflexivity | apply has_substring_append].
  - intros response ext -> -> Hne.
    apply truthy_nonempty in Hne. now rewrite Hne.
Qed.

Lemma probe_failure_is_undeterminable_witness :
  get_extension_from_url (sample_env unreachable unreachable) "http://example.com" empty_world
  = (Raise (undeterminable_extension "http://example.com"),
     probed "http://example.com" empty_world)
  /\ fst (get_extension_from_url
            (sample_env (Ok (sample_response 404 "text/html; charset=utf-8")) unreachable)
            "http://example.com" empty_world)
     = Ok ".html".
Proof.
  split.
  2: {
    destruct (probe_failure_is_undeterminable
                (sample_env (Ok (sample_response 404 "text/html; charset=utf-8")) unreachable)
                "http://example.com"
                (UrlParse.mkParseResult "http" "example.com" "" "" "" "") empty_world)
      as (_ & _ & _ & _ & Hmapped).
    - vm_compute; reflexivity.
    - left; reflexivity.
    - apply (Hmapped (sample_response 404 "text/html; charset=utf-8") ".html").
      + reflexivity.
      + vm_compute; reflexivity.
      + discriminate. }
  destruct (probe_failure_is_undeterminable
              (sample_env unreachable unreachable) "http://example.com"
              (UrlParse.mkParseResult "http" "example.com" "" "" "" "") empty_world)
    as (Hw & _ & Hr & _).
  - vm_compute; reflexivity.
  - left; reflexivity.
  - specialize (Hr I).
    destruct (get_extension_from_url (sample_env unreachable unreachable)
                "http://example.com" empty_world) as [r w'].
    cbn [fst snd] in *. now rewrite Hw, Hr.
Defined.

(** C6 as stated fails where it counts a status outside 2xx among the
    errors of the probe: line 50 makes no status check, so a 404 answer
    carrying [content-type: text/html] resolves to [.html] instead of
    raising. *)
Lemma probe_failure_is_undeterminable_counterexample :
  let url := "http://x/download" in
  let response := sample_response 404 "text/html; charset=utf-8" in
  let E := sample_env (Ok response) unreachable in
  head_reply E url default_headers = Ok response
  /\ Requests.status_code response = 404
  /\ fst (get_extension_from_url E url empty_world) = Ok ".html"
  /\ fst (get_extension_from_url E url empty_world) <> Raise (undeterminable_extension url).
Proof.
  vm_compute. repeat split; discriminate.
Qed.

(** C7, as the code has it.  Let the parsed path end in a dot, its last
    segment being [name] followed by that dot.  If [name] holds a character
    other than a dot (as in [/file.]), [os.path.splitext] gives the
    extension ["."], which is not empty: [get_extension_from_url] returns
    it and sends no probe.  Only if [name] is empty or all dots (as in [/.]
    or [/..]) is the extension empty, and then the probe is sent. *)
Theorem trailing_dot_extension
  (E : Env) (url : string) (parsed : UrlParse.ParseResult) (dir name : string)
  (w : World) :
  UrlParse.urlparse (check_bracketed_netloc E) url = Ok parsed ->
  UrlParse.path parsed = dir ++ name ++ "." ->
  dir = EmptyString \/ Str.endswith "/" dir = true ->
  Str.contains "/" name = false ->
  if Str.all_in "." name
  then snd (OsPath.splitext (UrlParse.path parsed)) = EmptyString
       /\ snd (get_extension_from_url E url w) = probed url w
  else snd (OsPath.splitext (UrlParse.path parsed)) = "."
       /\ get_extension_from_url E url w = (Ok ".", w).
Proof.
  intros Hp Hpath Hdir Hname.
  pose proof (splitext_trailing_dot dir name Hdir Hname) as Hs.
  rewrite <- Hpath in Hs.
  destruct (Str.all_in "." name).
  - assert (Hext : snd (OsPath.splitext (UrlParse.path parsed)) = EmptyString)
      by now rewrite Hs.
    split; [exact Hext |].
    now rewrite (get_extension_from_probe E url parsed w Hp Hext).
  - assert (Hext : snd (OsPath.splitext (UrlParse.path parsed)) = ".")
      by now rewrite Hs.
    split; [exact Hext |].
    rewrite (get_extension_from_path E url parsed w Hp) by (rewrite Hext; discriminate).
    now rewrite Hext.
Qed.

Lemma trailing_dot_extension_witness :
  snd (OsPath.splitext "/file.") = "."
  /\ get_extension_from_url (sample_env unreachable unreachable) "http://x/file." empty_world
     = (Ok ".", empty_world).
Proof.
  apply (trailing_dot_extension
           (sample_env unreachable unreachable) "http://x/file."
           (UrlParse.mkParseResult "http" "x" "/file." "" "" "") "/" "file" empty_world).
  - vm_compute; reflexivity.
  - reflexivity.
  - right; reflexivity.
  - reflexivity.
Defined.

(** C7 as stated fails: for [http://x/file.] the path step does not give
    the empty extension but ["."], which [get_extension_from_url] returns;
    nothing is sent, so the content-type probe is not reached. *)
Lemma trailing_dot_extension_counterexample :
  let url := "http://x/file." in
  let E := sample_env (Ok (sample_response 200 "image/jpeg")) unreachable in
  UrlParse.path <$> (match UrlParse.urlparse (check_bracketed_netloc E) url with
                     | Ok parsed => Some parsed
                     | Raise _ => None
                     end) = Some "/file."
  /\ snd (OsPath.splitext "/file.") <> EmptyString
  /\ get_extension_from_url E url empty_world = (Ok ".", empty_world)
  /\ sent (snd (get_extension_from_url E url empty_world)) = [].
Proof.
  vm_compute. repeat split; discriminate.
Qed.

(** * [download_file] *)

Section Downloader.

Variable E : Env.

Lemma touches_only_refl (p : string) (w : World) : touches_only p w w.
Proof. unfold touches_only; tauto. Qed.

Lemma touches_only_same (p : string) (w w' : World) :
  sent w' = sent w -> heap w' = heap w -> fs w' = fs w -> touches_only p w w'.
Proof. intros Hs Hh Hf. unfold touches_only. rewrite Hs, Hh, Hf. tauto. Qed.

Lemma touches_only_trans (p : string) (w1 w2 w3 : World) :
  touches_only p w1 w2 -> touches_only p w2 w3 -> touches_only p w1 w3.
Proof.
  intros (Hs1 & Hh1 & Hf1 & Hd1) (Hs2 & Hh2 & Hf2 & Hd2).
  repeat split; try congruence.
  - intros q Hq. rewrite (Hf2 q Hq). now apply Hf1.
  - intros H. now apply Hd1, Hd2.
  - intros H. now apply Hd2, Hd1.
Qed.

Lemma touches_only_insert_file (p : string) (content : list Byte.byte) (w : World) :
  fs w !! p <> Some Dir -> touches_only p w (set_fs <[p := File content]> w).
Proof.
  intros Hnd. unfold touches_only, set_fs; cbn [fs sent heap].
  repeat split.
  - intros q Hq. now rewrite lookup_insert_ne.
  - rewrite lookup_insert_eq. discriminate.
  - intros H; now elim Hnd.
Qed.

Lemma touches_only_delete_file (p : string) (content : list Byte.byte) (w : World) :
  fs w !! p = Some (File content) -> touches_only p w (set_fs (delete p) w).
Proof.
  intros Hf. unfold touches_only, set_fs; cbn [fs sent heap].
  repeat split.
  - intros q Hq. now rewrite lookup_delete_ne.
  - rewrite lookup_delete_eq. discriminate.
  - rewrite Hf. discriminate.
Qed.

Lemma open_wb_frame (p : string) (w : World) :
  touches_only p w (snd (open_wb E p w)).
Proof.
  unfold open_wb.
  destruct (fs w !! p) as [[| content] |] eqn:Hp; cbn [snd];
    try apply touches_only_refl;
    (destruct (open_fault E p); cbn [snd];
     [apply touches_only_refl | apply touches_only_insert_file; rewrite Hp; discriminate]).
Qed.

Lemma file_write_frame (p : string) (k : nat) (chunk : list Byte.byte) (w : World) :
  touches_only p w (snd (file_write E p k chunk w)).
Proof.
  unfold file_write.
  destruct (write_fault E k); cbn [snd]; [apply touches_only_refl |].
  destruct (fs w !! p) as [[| content] |] eqn:Hp.
  - apply touches_only_same; unfold set_fs; cbn [fs sent heap]; now rewrite ?Hp.
  - replace (set_fs _ w) with (set_fs <[p := File (content ++ chunk)]> w)
      by (unfold set_fs; now rewrite Hp).
    apply touches_only_insert_file; rewrite Hp; discriminate.
  - apply touches_only_same; unfold set_fs; cbn [fs sent heap]; now rewrite ?Hp.
Qed.

Lemma write_chunks_frame (p : string) (chunks : list (list Byte.byte)) (k : nat) (w : World) :
  touches_only p w (snd (write_chunks E p chunks k w)).
Proof.
  revert k w; induction chunks as [| chunk rest IH]; intros k w;
    [apply touches_only_refl |].
  destruct chunk as [| b chunk]; [apply IH |].
  cbn [write_chunks]. unfold bind.
  pose proof (file_write_frame p k (b :: chunk) w) as Hw.
  destruct (file_write E p k (b :: chunk) w) as [[[] | e] w1]; cbn [snd] in *;
    [| exact Hw].
  eapply touches_only_trans; [exact Hw | apply IH].
Qed.

Lemma write_body_frame (p : string) (response : Requests.Response) (w : World) :
  touches_only p w (snd (write_body E p response w)).
Proof.
  unfold write_body, bind.
  pose proof (open_wb_frame p w) as Ho.
  destruct (open_wb E p w) as [[[] | e] w1]; cbn [snd] in *; [| exact Ho].
  pose proof (write_chunks_frame p (Requests.chunks response) 0 w1) as Hc.
  destruct (write_chunks E p (Requests.chunks response) 0 w1) as [[[] | e] w2];
    cbn [snd] in *; [| eapply touches_only_trans; eassumption].
  destruct (Requests.stream_error response); cbn [snd];
    eapply touches_only_trans; eassumption.
Qed.

(** The handler, case by case on what sits at [local]: nothing, and [e]
    is raised again at once; a regular file, and it is removed and [e]
    raised again, unless the removal raises, which then replaces [e] and
    leaves the file; a directory, and [os.remove] raises in place of [e]. *)
Lemma download_cleanup_cases (local : string) (e : Exception) (w : World) :
  download_cleanup E local e w
  = match fs w !! local with
    | None => (Raise e, w)
    | Some (File _) =>
        match remove_fault E local with
        | None => (Raise e, set_fs (delete local) w)
        | Some e' => (Raise e', w)
        end
    | Some Dir => (Raise (OSError "IsADirectoryError"), w)
    end.
Proof.
  unfold download_cleanup, bind, os_path_exists, os_remove, raise, ret.
  destruct (fs w !! local) as [[| content] |] eqn:Hl.
  - rewrite bool_decide_eq_true_2 by eauto. now rewrite Hl.
  - rewrite bool_decide_eq_true_2 by eauto. rewrite Hl.
    now destruct (remove_fault E local).
  - now rewrite bool_decide_eq_false_2 by (intros [x Hx]; discriminate).
Qed.

(** The handler never turns the raise into a return, and touches nothing
    but the file at [local]. *)
Lemma download_cleanup_frame (local : string) (e : Exception) (w : World) :
  touches_only local w (snd (download_cleanup E local e w))
  /\ exists e' : Exception, fst (download_cleanup E local e w) = Raise e'.
Proof.
  rewrite download_cleanup_cases.
  destruct (fs w !! local) as [[| content] |] eqn:Hl; cbn [fst snd].
  - split; [apply touches_only_refl | eauto].
  - destruct (remove_fault E local); cbn [fst snd].
    + split; [apply touches_only_refl | eauto].
    + split; [eapply touches_only_delete_file; eassumption | eauto].
  - split; [apply touches_only_refl | eauto].
Qed.

(** The handler writes nothing: afterwards the local path holds what it
    held, or nothing. *)
Lemma download_cleanup_writes_nothing (local : string) (e : Exception) (w : World) :
  fs (snd (download_cleanup E local e w)) !! local = fs w !! local
  \/ fs (snd (download_cleanup E local e w)) !! local = None.
Proof.
  rewrite download_cleanup_cases.
  destruct (fs w !! local) as [[| content] |] eqn:Hl; cbn [snd]; auto.
  destruct (remove_fault E local); cbn [snd]; auto.
  right. unfold set_fs; cbn [fs]. apply lookup_delete_eq.
Qed.

End Downloader.

Section DownloaderRun.

Variable E : Env.

Lemma default_headers_nonempty : default_headers <> ∅.
Proof. unfold default_headers. apply insert_non_empty. Qed.

Lemma fresh_not_live (w : World) (l : loc) (d : gmap string string) :
  heap w !! l = Some d -> l <> fresh (dom (heap w)).
Proof.
  intros Hl ->. apply (is_fresh (dom (heap w))).
  apply elem_of_dom; eauto.
Qed.

Lemma fresh_dangling (w : World) : deref w (fresh (dom (heap w))) = ∅.
Proof.
  unfold deref.
  destruct (heap w !! fresh (dom (heap w))) as [d |] eqn:Hl; [| reflexivity].
  now elim (fresh_not_live w _ d Hl).
Qed.

Lemma keeps_dicts_refl (w : World) : keeps_dicts w w.
Proof. now intros l d. Qed.

Lemma keeps_dicts_trans (w1 w2 w3 : World) :
  keeps_dicts w1 w2 -> keeps_dicts w2 w3 -> keeps_dicts w1 w3.
Proof. intros H1 H2 l d Hl. now apply H2, H1. Qed.

Lemma keeps_dicts_alloc (w : World) (d : gmap string string) :
  keeps_dicts w (set_heap <[fresh (dom (heap w)) := d]> w).
Proof.
  intros l d' Hl. unfold set_heap; cbn [heap].
  rewrite lookup_insert_ne; [exact Hl |].
  intros Heq. now apply (fresh_not_live w l d' Hl).
Qed.

Lemma keeps_dicts_probed (url : string) (w : World) : keeps_dicts w (probed url w).
Proof. apply keeps_dicts_alloc. Qed.

Lemma keeps_dicts_requested (url : string) (ch : option loc) (w : World) :
  keeps_dicts w (requested url ch w).
Proof. apply keeps_dicts_alloc. Qed.

Lemma keeps_dicts_touches (p : string) (w w' : World) :
  touches_only p w w' -> keeps_dicts w w'.
Proof. intros (_ & Hh & _) l d. now rewrite Hh. Qed.

(** Lines 89-94 leave exactly the merged headers in the new dict. *)
Lemma build_headers_run (ch : option loc) (w : World) :
  build_headers ch w
  = (Ok (fresh (dom (heap w))),
     set_heap <[fresh (dom (heap w)) := outgoing_headers w ch]> w).
Proof.
  unfold build_headers, bind, dict_new, dict_truthy, dict_update, ret; cbv zeta.
  destruct ch as [c |]; [| reflexivity].
  unfold outgoing_headers.
  destruct (decide (c = fresh (dom (heap w)))) as [-> | Hne].
  - rewrite !deref_alloc, fresh_dangling.
    rewrite bool_decide_eq_false_2 by apply default_headers_nonempty.
    cbn [negb]. rewrite !deref_alloc.
    unfold set_heap; cbn [fs sent heap].
    now rewrite insert_insert_eq, (left_id_L ∅ (∪)), (idemp_L (∪)).
  - assert (Hc : deref (set_heap <[fresh (dom (heap w)) := default_headers]> w) c
                 = deref w c)
      by (unfold deref, set_heap; cbn [heap]; now rewrite lookup_insert_ne).
    rewrite Hc.
    destruct (decide (deref w c = ∅)) as [He | He].
    + rewrite bool_decide_eq_true_2 by exact He. cbn [negb].
      now rewrite He, (left_id_L ∅ (∪)).
    + rewrite bool_decide_eq_false_2 by exact He. cbn [negb].
      rewrite ?Hc, ?deref_alloc.
      unfold set_heap; cbn [fs sent heap]. now rewrite insert_insert_eq.
Qed.

(** The [try] body, step by step. *)
Lemma download_attempt_run (url local : string) (ch : option loc) (w : World) :
  download_attempt E url local ch w
  = match get_reply E url (outgoing_headers w ch) with
    | Raise e => (Raise e, requested url ch w)
    | Ok response =>
        match Requests.raise_for_status response with
        | Raise e => (Raise e, requested url ch w)
        | Ok _ =>
            match write_body E local response (requested url ch w) with
            | (Ok _, w') => (Ok local, w')
            | (Raise e, w') => (Raise e, w')
            end
        end
    end.
Proof.
  unfold download_attempt, bind. rewrite build_headers_run.
  unfold requests_get, lift, ret. rewrite deref_alloc.
  fold (get_request url (outgoing_headers w ch)). fold (requested url ch w).
  destruct (get_reply E url (outgoing_headers w ch)) as [response | e]; [| reflexivity].
  destruct (Requests.raise_for_status response) as [[] | e]; [| reflexivity].
  now destruct (write_body E local response (requested url ch w)) as [[[] | e] w'].
Qed.

End DownloaderRun.

Section DownloaderCases.

Variable E : Env.

Lemma os_makedirs_run (name : string) (w : World) :
  (exists e : Exception, os_makedirs E name w = (Raise e, w))
  \/ os_makedirs E name w = (Ok tt, set_fs <[name := Dir]> w).
Proof.
  unfold os_makedirs.
  destruct (makedirs_fault E name); [left; eauto |].
  destruct (fs w !! name) as [[| content] |]; try (left; eauto; fail);
    (destruct (Str.truthy name); [now right | left; eauto]).
Qed.

Lemma get_extension_world (url : string) (w : World) :
  snd (get_extension_from_url E url w) = w
  \/ snd (get_extension_from_url E url w) = probed url w.
Proof.
  destruct (UrlParse.urlparse (check_bracketed_netloc E) url) as [parsed | e] eqn:Hp.
  - destruct (splitext_ext_dot (UrlParse.path parsed)) as [Hnone | Hdot].
    + right. now rewrite (get_extension_from_probe E url parsed w Hp Hnone).
    + left. rewrite (get_extension_from_path E url parsed w Hp); [reflexivity |].
      intros H0; rewrite H0 in Hdot; discriminate.
  - left. now rewrite (get_extension_parse_error E url e w Hp).
Qed.

Lemma raise_for_status_spec (response : Requests.Response) :
  Requests.raise_for_status response
  = if (400 <=? Requests.status_code response) && (Requests.status_code response <? 600)
    then Raise (HTTPError (Requests.status_code response) (Requests.url response))
    else Ok tt.
Proof.
  unfold Requests.raise_for_status.
  destruct (Z.leb_spec 400 (Requests.status_code response));
    destruct (Z.ltb_spec (Requests.status_code response) 500);
    destruct (Z.leb_spec 500 (Requests.status_code response));
    destruct (Z.ltb_spec (Requests.status_code response) 600);
    cbn [andb]; try reflexivity; lia.
Qed.

Lemma download_attempt_frame (url local : string) (ch : option loc) (w : World) :
  touches_only local (requested url ch w) (snd (download_attempt E url local ch w)).
Proof.
  rewrite download_attempt_run.
  destruct (get_reply E url (outgoing_headers w ch)) as [response | e];
    [| apply touches_only_refl].
  destruct (Requests.raise_for_status response) as [[] | e]; [| apply touches_only_refl].
  pose proof (write_body_frame E local response (requested url ch w)) as Hb.
  now destruct (write_body E local response (requested url ch w)) as [[[] | e] w'].
Qed.

(** [download_file] after a successful resolution is the [try] with its
    handler. *)
Lemma download_file_resolved (url storage_path : string) (ch : option loc)
  (w w0 w1 : World) (ext : string) :
  os_makedirs E storage_path w = (Ok tt, w0) ->
  get_extension_from_url E (rewrite_url E url) w0 = (Ok ext, w1) ->
  download_file E url storage_path ch w
  = try_except
      (download_attempt E (rewrite_url E url) (local_filename E storage_path ext) ch)
      (download_cleanup E (local_filename E storage_path ext)) w1.
Proof. intros Hm Hx. unfold download_file, bind at 1 2. now rewrite Hm, Hx. Qed.

Lemma download_file_unresolved (url storage_path : string) (ch : option loc)
  (w w0 w1 : World) (e : Exception) :
  os_makedirs E storage_path w = (Ok tt, w0) ->
  get_extension_from_url E (rewrite_url E url) w0 = (Raise e, w1) ->
  download_file E url storage_path ch w = (Raise e, w1).
Proof. intros Hm Hx. unfold download_file, bind. now rewrite Hm, Hx. Qed.

Lemma download_file_no_directory (url storage_path : string) (ch : option loc)
  (w w0 : World) (e : Exception) :
  os_makedirs E storage_path w = (Raise e, w0) ->
  download_file E url storage_path ch w = (Raise e, w0).
Proof. intros Hm. unfold download_file, bind. now rewrite Hm. Qed.

(** Once the extension is resolved, the rest of the call sends the GET and
    then touches nothing but the local file. *)
Lemma download_file_frame (url storage_path : string) (ch : option loc)
  (w w0 w1 : World) (ext : string) :
  os_makedirs E storage_path w = (Ok tt, w0) ->
  get_extension_from_url E (rewrite_url E url) w0 = (Ok ext, w1) ->
  touches_only (local_filename E storage_path ext)
    (requested (rewrite_url E url) ch w1)
    (snd (download_file E url storage_path ch w)).
Proof.
  intros Hm Hx. rewrite (download_file_resolved _ _ ch _ _ _ _ Hm Hx).
  unfold try_except.
  pose proof (download_attempt_frame (rewrite_url E url)
                (local_filename E storage_path ext) ch w1) as Ha.
  destruct (download_attempt E (rewrite_url E url) (local_filename E storage_path ext) ch w1)
    as [[path | e] w2]; cbn [snd] in *; [exact Ha |].
  eapply touches_only_trans; [exact Ha |].
  apply download_cleanup_frame.
Qed.

(** No dict that exists when [download_file] is entered is changed by it. *)
Lemma download_file_keeps_dicts (url storage_path : string) (ch : option loc) (w : World) :
  keeps_dicts w (snd (download_file E url storage_path ch w)).
Proof.
  destruct (os_makedirs_run storage_path w) as [[e Hm] | Hm].
  - rewrite (download_file_no_directory _ _ ch _ _ _ Hm). apply keeps_dicts_refl.
  - set (w0 := set_fs <[storage_path := Dir]> w) in *.
    assert (H01 : keeps_dicts w0 (snd (get_extension_from_url E (rewrite_url E url) w0)))
      by (destruct (get_extension_world (rewrite_url E url) w0) as [-> | ->];
          [apply keeps_dicts_refl | apply keeps_dicts_probed]).
    destruct (get_extension_from_url E (rewrite_url E url) w0) as [[ext | e] w1] eqn:Hx;
      cbn [snd] in H01.
    + pose proof (download_file_frame url storage_path ch w w0 w1 ext Hm Hx) as Hf.
      apply keeps_dicts_touches in Hf.
      intros l d Hl. apply Hf, keeps_dicts_requested, H01. exact Hl.
    + rewrite (download_file_unresolved _ _ ch _ _ _ _ Hm Hx); cbn [snd].
      intros l d Hl. apply H01. exact Hl.
Qed.

End DownloaderCases.

(** C1, as the code has it.  Let a call of [download_file] get as far as
    the [try] (the directory made, the extension resolved) and let the
    request or the write fail there with [e] (the GET raising, the status
    check, [open], a [write], the stream breaking off).  One GET was sent,
    so nothing was retried, and no path but the local one has changed.
    What the handler then does depends on what sits at the local path.
    Nothing: [e] is raised again as it is.  A regular file (the partial
    one): [os.remove] is called; if it succeeds, nothing exists at the
    local path afterwards and [e] is raised again as it is; if it raises,
    its error leaves the handler in place of [e] and the file stays.  A
    directory: [os.remove] raises, and that error takes the place of
    [e]. *)
Theorem failed_download_cleanup
  (E : Env) (url storage_path : string) (custom_headers : option loc)
  (w w0 w1 w2 : World) (ext : string) (e : Exception) :
  os_makedirs E storage_path w = (Ok tt, w0) ->
  get_extension_from_url E (rewrite_url E url) w0 = (Ok ext, w1) ->
  download_attempt E (rewrite_url E url) (local_filename E storage_path ext)
    custom_headers w1 = (Raise e, w2) ->
  sent w2
  = (sent w1 ++ [get_request (rewrite_url E url) (outgoing_headers w1 custom_headers)])%list
  /\ (forall q : string,
        q <> local_filename E storage_path ext -> fs w2 !! q = fs w1 !! q)
  /\ match fs w2 !! local_filename E storage_path ext with
     | None =>
         download_file E url storage_path custom_headers w = (Raise e, w2)
     | Some (File _) =>
         match remove_fault E (local_filename E storage_path ext) with
         | None =>
             download_file E url storage_path custom_headers w
             = (Raise e, set_fs (delete (local_filename E storage_path ext)) w2)
             /\ fs (set_fs (delete (local_filename E storage_path ext)) w2)
                  !! local_filename E storage_path ext = None
         | Some e' =>
             download_file E url storage_path custom_headers w = (Raise e', w2)
         end
     | Some Dir =>
         download_file E url storage_path custom_headers w
         = (Raise (OSError "IsADirectoryError"), w2)
     end.
Proof.
  intros Hm Hx Ha.
  pose proof (download_attempt_frame E (rewrite_url E url)
                (local_filename E storage_path ext) custom_headers w1) as Hf.
  rewrite Ha in Hf; cbn [snd] in Hf.
  destruct Hf as (Hs2 & _ & Hq2 & _).
  split; [exact Hs2 |]. split; [exact Hq2 |].
  rewrite (download_file_resolved E _ _ custom_headers _ _ _ _ Hm Hx).
  unfold try_except; rewrite Ha, download_cleanup_cases.
  destruct (fs w2 !! local_filename E storage_path ext) as [[| content] |];
    [reflexivity | | reflexivity].
  destruct (remove_fault E (local_filename E storage_path ext)); [reflexivity |].
  split; [reflexivity |]. unfold set_fs; cbn [fs]. apply lookup_delete_eq.
Qed.

Lemma failed_download_cleanup_witness :
  let E := sample_env unreachable (Ok broken_response) in
  let w0 := set_fs <["/tmp/" := Dir]> empty_world in
  let w2 := snd (download_attempt E "http://x/a.jpg" (local_filename E "/tmp/" ".jpg")
                   None w0) in
  download_file E "http://x/a.jpg" "/tmp/" None empty_world
  = (Raise (RequestException "ChunkedEncodingError"),
     set_fs (delete (local_filename E "/tmp/" ".jpg")) w2)
  /\ fs (set_fs (delete (local_filename E "/tmp/" ".jpg")) w2)
       !! local_filename E "/tmp/" ".jpg" = None.
Proof.
  intros E w0 w2.
  destruct (failed_download_cleanup E "http://x/a.jpg" "/tmp/" None
              empty_world w0 w0 w2 ".jpg" (RequestException "ChunkedEncodingError"))
    as (_ & _ & H).
  - vm_compute; reflexivity.
  - vm_compute; reflexivity.
  - vm_compute; reflexivity.
  - assert (Hl : fs w2 !! local_filename E "/tmp/" ".jpg"
                 = Some (File [Byte.x01; Byte.x02])) by (vm_compute; reflexivity).
    rewrite Hl in H.
    change (remove_fault E (local_filename E "/tmp/" ".jpg")) with (@None Exception) in H.
    exact H.
Defined.

(** C1 as stated fails when [os.remove] itself raises: the body breaks off
    after its first chunk, the handler's [os.remove] is refused, and what
    reaches the caller is the error of [os.remove], not the original one,
    while the partial file is still there. *)
Lemma failed_download_cleanup_counterexample :
  let E := undeletable_env unreachable (Ok broken_response) in
  let outcome := download_file E "http://x/a.jpg" "/tmp/" None empty_world in
  Requests.stream_error broken_response = Some (RequestException "ChunkedEncodingError")
  /\ fst outcome = Raise (OSError "PermissionError")
  /\ fst outcome <> Raise (RequestException "ChunkedEncodingError")
  /\ fs (snd outcome) !! "/tmp/3f2b8c1e-5d4a-4e6f-9a7b-1c2d3e4f5a6b.jpg"
     = Some (File [Byte.x01; Byte.x02]).
Proof.
  vm_compute. repeat split; discriminate.
Qed.

(** C4, as the code has it.  Let the GET come back with a response.  If
    its status is in 400..599, [raise_for_status] raises an [HTTPError]
    and [download_file] is the handler run on it: it raises, it returns no
    path, and it writes nothing (every path holds what it held, or
    nothing); what it raises is that [HTTPError], unless something sits at
    the local path already and its removal raises.  For every other status
    (2xx, but also 1xx, 3xx and 600 and above) nothing is raised at this
    step: [download_file] goes on to write the body, returns the local
    path if the write succeeds, and runs the handler on the error of the
    write if it does not. *)
Theorem status_check
  (E : Env) (url storage_path : string) (custom_headers : option loc)
  (w w0 w1 : World) (ext : string) (response : Requests.Response) :
  os_makedirs E storage_path w = (Ok tt, w0) ->
  get_extension_from_url E (rewrite_url E url) w0 = (Ok ext, w1) ->
  get_reply E (rewrite_url E url) (outgoing_headers w1 custom_headers) = Ok response ->
  if (400 <=? Requests.status_code response) && (Requests.status_code response <? 600)
  then
    download_file E url storage_path custom_headers w
    = download_cleanup E (local_filename E storage_path ext)
        (HTTPError (Requests.status_code response) (Requests.url response))
        (requested (rewrite_url E url) custom_headers w1)
    /\ (exists e : Exception,
          fst (download_file E url storage_path custom_headers w) = Raise e)
    /\ (forall q : string,
          fs (snd (download_file E url storage_path custom_headers w)) !! q = fs w1 !! q
          \/ fs (snd (download_file E url storage_path custom_headers w)) !! q = None)
    /\ (fs w1 !! local_filename E storage_path ext = None
        \/ ((exists content : list Byte.byte,
               fs w1 !! local_filename E storage_path ext = Some (File content))
            /\ remove_fault E (local_filename E storage_path ext) = None) ->
        fst (download_file E url storage_path custom_headers w)
        = Raise (HTTPError (Requests.status_code response) (Requests.url response)))
  else
    match write_body E (local_filename E storage_path ext) response
            (requested (rewrite_url E url) custom_headers w1) with
    | (Ok _, w') =>
        download_file E url storage_path custom_headers w
        = (Ok (local_filename E storage_path ext), w')
    | (Raise e, w2) =>
        download_file E url storage_path custom_headers w
        = download_cleanup E (local_filename E storage_path ext) e w2
    end.
Proof.
  intros Hm Hx Hg.
  rewrite (download_file_resolved E _ _ custom_headers _ _ _ _ Hm Hx).
  unfold try_except. rewrite download_attempt_run, Hg, raise_for_status_spec.
  destruct ((400 <=? Requests.status_code response)
            && (Requests.status_code response <? 600)) eqn:Hs.
  - split; [reflexivity |].
    split; [apply download_cleanup_frame |].
    split.
    + intros q.
      destruct (decide (q = local_filename E storage_path ext)) as [-> | Hne].
      * exact (download_cleanup_writes_nothing E (local_filename E storage_path ext)
                 (HTTPError (Requests.status_code response) (Requests.url response))
                 (requested (rewrite_url E url) custom_headers w1)).
      * left.
        destruct (download_cleanup_frame E (local_filename E storage_path ext)
                    (HTTPError (Requests.status_code response) (Requests.url response))
                    (requested (rewrite_url E url) custom_headers w1))
          as ((_ & _ & Hq & _) & _).
        now rewrite (Hq q Hne).
    + rewrite download_cleanup_cases.
      change (fs (requested (rewrite_url E url) custom_headers w1)) with (fs w1).
      intros [Hnone | [[content Hfile] Hrm]].
      * now rewrite Hnone.
      * now rewrite Hfile, Hrm.
  - now destruct (write_body E (local_filename E storage_path ext) response
                    (requested (rewrite_url E url) custom_headers w1)) as [[[] | e] w2].
Qed.

Lemma status_check_witness :
  let E := sample_env unreachable (Ok (sample_response 404 "text/html")) in
  fst (download_file E "http://x/a.jpg" "/tmp/" None empty_world)
  = Raise (HTTPError 404 "http://x/").
Proof.
  intros E.
  pose proof (status_check E "http://x/a.jpg" "/tmp/" None empty_world
                (set_fs <["/tmp/" := Dir]> empty_world)
                (set_fs <["/tmp/" := Dir]> empty_world)
                ".jpg" (sample_response 404 "text/html")) as H.
  assert (Hm : os_makedirs E "/tmp/" empty_world
               = (Ok tt, set_fs <["/tmp/" := Dir]> empty_world))
    by (vm_compute; reflexivity).
  assert (Hx : get_extension_from_url E (rewrite_url E "http://x/a.jpg")
                 (set_fs <["/tmp/" := Dir]> empty_world)
               = (Ok ".jpg", set_fs <["/tmp/" := Dir]> empty_world))
    by (vm_compute; reflexivity).
  specialize (H Hm Hx eq_refl).
  change ((400 <=? Requests.status_code (sample_response 404 "text/html"))
          && (Requests.status_code (sample_response 404 "text/html") <? 600))
    with true in H.
  destruct H as (_ & _ & _ & H).
  apply H. left. vm_compute; reflexivity.
Defined.

(** C4 as stated fails: a status outside 2xx need not raise.  On a 304
    answer [raise_for_status] is silent, the body is written and the path
    returned. *)
Lemma status_check_counterexample :
  let response := sample_response 304 "image/jpeg" in
  let E := sample_env unreachable (Ok response) in
  let outcome := download_file E "http://x/a.jpg" "/tmp/" None empty_world in
  Requests.status_code response = 304
  /\ Requests.raise_for_status response = Ok tt
  /\ fst outcome = Ok "/tmp/3f2b8c1e-5d4a-4e6f-9a7b-1c2d3e4f5a6b.jpg"
  /\ fs (snd outcome) !! "/tmp/3f2b8c1e-5d4a-4e6f-9a7b-1c2d3e4f5a6b.jpg"
     = Some (File [Byte.x01; Byte.x02; Byte.x03]).
Proof.
  vm_compute. repeat split.
Qed.

(** C8.  Once the extension is resolved, [download_file] sends one GET, and
    its headers are the default User-Agent mapping with the caller's dict
    laid over it: on every key the caller's value if there is one, the
    default otherwise, so the caller can replace User-Agent; with no
    custom headers (or an empty dict), exactly the default User-Agent. *)
Theorem request_headers_are_merged
  (E : Env) (url storage_path : string) (custom_headers : option loc)
  (w w0 w1 : World) (ext : string) :
  os_makedirs E storage_path w = (Ok tt, w0) ->
  get_extension_from_url E (rewrite_url E url) w0 = (Ok ext, w1) ->
  (forall c : loc, custom_headers = Some c -> is_Some (heap w !! c)) ->
  let custom :=
    match custom_headers with Some c => deref w c | None => ∅ end in
  exists headers : gmap string string,
    sent (snd (download_file E url storage_path custom_headers w))
    = (sent w1 ++ [get_request (rewrite_url E url) headers])%list
    /\ (forall key : string,
          headers !! key
          = match custom !! key with
            | Some value => Some value
            | None => default_headers !! key
            end)
    /\ (custom = ∅ -> headers = default_headers)
    /\ headers !! "User-Agent" = Some (default USER_AGENT (custom !! "User-Agent")).
Proof.
  intros Hm Hx Hlive custom.
  pose proof (download_file_frame E url storage_path custom_headers w w0 w1 ext Hm Hx)
    as (Hs & _).
  assert (Hcustom : outgoing_headers w1 custom_headers = custom ∪ default_headers).
  { unfold outgoing_headers, custom. destruct custom_headers as [c |];
      [| now rewrite (left_id_L ∅ (∪))].
    destruct (Hlive c eq_refl) as [d Hd].
    assert (H0 : heap w0 !! c = Some d).
    { destruct (os_makedirs_run E storage_path w) as [[e He] | He];
        rewrite He in Hm; [discriminate |].
      injection Hm as <-. exact Hd. }
    assert (H1 : heap w1 !! c = Some d).
    { pose proof (get_extension_world E (rewrite_url E url) w0) as Hw.
      rewrite Hx in Hw; cbn [snd] in Hw.
      destruct Hw as [-> | ->]; [exact H0 | now apply keeps_dicts_probed]. }
    unfold deref. now rewrite H1, Hd. }
  assert (Hlookup : forall key : string,
            (custom ∪ default_headers) !! key
            = match custom !! key with
              | Some value => Some value
              | None => default_headers !! key
              end).
  { intros key. rewrite lookup_union.
    destruct (custom !! key), (default_headers !! key); reflexivity. }
  exists (custom ∪ default_headers). split; [| split; [| split]].
  - rewrite Hs. unfold requested, log_request; cbn [sent]. now rewrite Hcustom.
  - exact Hlookup.
  - intros ->. now rewrite (left_id_L ∅ (∪)).
  - rewrite Hlookup. destruct (custom !! "User-Agent"); reflexivity.
Qed.

Lemma request_headers_are_merged_witness :
  let E := sample_env unreachable (Ok (sample_response 200 "image/jpeg")) in
  exists headers : gmap string string,
    sent (snd (download_file E "http://x/a.jpg" "/tmp/" (Some 1%positive) caller_world))
    = [get_request "http://x/a.jpg" headers]
    /\ headers !! "Authorization" = Some "Bearer t"
    /\ headers !! "User-Agent" = Some "curl/8".
Proof.
  intros E.
  destruct (request_headers_are_merged E "http://x/a.jpg" "/tmp/" (Some 1%positive)
              caller_world
              (set_fs <["/tmp/" := Dir]> caller_world)
              (set_fs <["/tmp/" := Dir]> caller_world) ".jpg")
    as (headers & Hs & Hl & _ & Hua).
  - vm_compute; reflexivity.
  - vm_compute; reflexivity.
  - intros c [= <-]. exists caller_headers. vm_compute; reflexivity.
  - exists headers. split; [exact Hs |]. split; [| exact Hua].
    rewrite Hl. vm_compute; reflexivity.
Defined.

(** C9.  The dict the caller passes as [custom_headers] is never written
    to: the merge goes into a dict made by the call, so after the call,
    whether it returned or raised, the caller's dict (like every dict that
    existed on entry) holds exactly the entries it held before. *)
Theorem custom_headers_are_not_mutated
  (E : Env) (url storage_path : string) (c : loc) (d : gmap string string) (w : World) :
  heap w !! c = Some d ->
  heap (snd (download_file E url storage_path (Some c) w)) !! c = Some d
  /\ keeps_dicts w (snd (download_file E url storage_path (Some c) w)).
Proof.
  intros Hc.
  pose proof (download_file_keeps_dicts E url storage_path (Some c) w) as Hk.
  split; [now apply Hk | exact Hk].
Qed.

Lemma custom_headers_are_not_mutated_witness :
  let E := sample_env unreachable (Ok (sample_response 200 "image/jpeg")) in
  heap (snd (download_file E "http://x/a.jpg" "/tmp/" (Some 1%positive) caller_world))
    !! 1%positive = Some caller_headers.
Proof.
  intros E.
  destruct (custom_headers_are_not_mutated E "http://x/a.jpg" "/tmp/" 1%positive
              caller_headers caller_world) as [H _].
  - vm_compute; reflexivity.
  - exact H.
Defined.

(** C10.  [os.makedirs] is the first step: if it raises, [download_file]
    raises the same error with the world untouched.  Otherwise the storage
    path is a directory from then on and still is one when the call ends,
    however it ends; no directory is removed on any path.  If the extension
    cannot be resolved, that error is raised with the file system as
    [os.makedirs] left it and no GET in the log; if it can, every path
    other than the local file is as [os.makedirs] left it. *)
Theorem storage_directory_is_kept
  (E : Env) (url storage_path : string) (custom_headers : option loc) (w : World) :
  match os_makedirs E storage_path w with
  | (Raise e, _) => download_file E url storage_path custom_headers w = (Raise e, w)
  | (Ok _, w0) =>
      let w' := snd (download_file E url storage_path custom_headers w) in
      fs w0 !! storage_path = Some Dir
      /\ fs w' !! storage_path = Some Dir
      /\ (forall q : string, fs w0 !! q = Some Dir -> fs w' !! q = Some Dir)
      /\ match get_extension_from_url E (rewrite_url E url) w0 with
         | (Raise e, w1) =>
             download_file E url storage_path custom_headers w = (Raise e, w1)
             /\ fs w1 = fs w0
             /\ (sent w1 = sent w
                 \/ sent w1 = (sent w ++ [head_request (rewrite_url E url)])%list)
         | (Ok ext, _) =>
             forall q : string,
               q <> local_filename E storage_path ext -> fs w' !! q = fs w0 !! q
         end
  end.
Proof.
  destruct (os_makedirs_run E storage_path w) as [[e Hm] | Hm]; rewrite Hm.
  { now apply download_file_no_directory. }
  set (w0 := set_fs <[storage_path := Dir]> w) in *.
  cbv zeta.
  assert (Hsp : fs w0 !! storage_path = Some Dir)
    by (unfold w0, set_fs; cbn [fs]; apply lookup_insert_eq).
  pose proof (get_extension_world E (rewrite_url E url) w0) as Hw.
  destruct (get_extension_from_url E (rewrite_url E url) w0) as [[ext | e] w1] eqn:Hx;
    cbn [snd] in Hw.
  - pose proof (download_file_frame E url storage_path custom_headers w w0 w1 ext Hm Hx)
      as (_ & _ & Hq & Hd).
    assert (Hfs : fs (requested (rewrite_url E url) custom_headers w1) = fs w0)
      by (destruct Hw as [-> | ->]; reflexivity).
    rewrite Hfs in Hq, Hd.
    assert (Hdirs : forall q : string,
              fs w0 !! q = Some Dir ->
              fs (snd (download_file E url storage_path custom_headers w)) !! q = Some Dir).
    { intros q Hdir.
      destruct (decide (q = local_filename E storage_path ext)) as [-> | Hne].
      - now apply Hd.
      - now rewrite (Hq q Hne). }
    repeat split; auto.
  - rewrite (download_file_unresolved E _ _ custom_headers _ _ _ _ Hm Hx); cbn [snd].
    assert (Hfs : fs w1 = fs w0) by (destruct Hw as [-> | ->]; reflexivity).
    assert (Hsent : sent w1 = sent w
                    \/ sent w1 = (sent w ++ [head_request (rewrite_url E url)])%list)
      by (destruct Hw as [-> | ->]; [left | right]; reflexivity).
    rewrite Hfs. repeat split; auto.
Qed.

Lemma storage_directory_is_kept_witness :
  let E := sample_env unreachable unreachable in
  let outcome := download_file E "http://x/download" "/tmp/" None empty_world in
  fst outcome = Raise (undeterminable_extension "http://x/download")
  /\ fs (snd outcome) !! "/tmp/" = Some Dir.
Proof.
  intros E outcome.
  pose proof (storage_directory_is_kept E "http://x/download" "/tmp/" None empty_world) as H.
  assert (Hm : os_makedirs E "/tmp/" empty_world
               = (Ok tt, set_fs <["/tmp/" := Dir]> empty_world))
    by (vm_compute; reflexivity).
  rewrite Hm in H. cbv zeta in H.
  destruct H as (_ & Hdir & _ & H).
  split; [| exact Hdir].
  assert (Hx : fst (get_extension_from_url E (rewrite_url E "http://x/download")
                      (set_fs <["/tmp/" := Dir]> empty_world))
               = Raise (undeterminable_extension "http://x/download"))
    by (vm_compute; reflexivity).
  destruct (get_extension_from_url E (rewrite_url E "http://x/download")
              (set_fs <["/tmp/" := Dir]> empty_world)) as [[ext | e] w1];
    cbn [fst] in Hx; [discriminate |].
  destruct H as (Hr & _). unfold outcome. rewrite Hr. exact Hx.
Defined.

(** C2.  With [S3_PUBLIC_URL] (default [http://78.46.146.79:9000]) as the
    external base and [S3_ENDPOINT_URL] (default [http://minio:9000]) as
    the internal one: a URL made of the external base and a remainder is
    rewritten to the internal base and that same remainder, whatever the
    remainder holds, so the one substitution is the one at the start; a URL
    that does not begin with the external base is left as it is; and every
    request [download_file] sends, the probe and the GET, goes to the
    rewritten URL, the GET being sent whenever the extension is resolved. *)
Theorem external_prefix_is_rewritten_once
  (E : Env) (url storage_path : string) (custom_headers : option loc) (w : World) :
  let minio_external := environ_get E "S3_PUBLIC_URL" "http://78.46.146.79:9000" in
  let minio_internal := environ_get E "S3_ENDPOINT_URL" "http://minio:9000" in
  (forall rest : string,
      url = minio_external ++ rest -> rewrite_url E url = minio_internal ++ rest)
  /\ (Str.startswith minio_external url = false -> rewrite_url E url = url)
  /\ exists new : list Requests.Request,
       sent (snd (download_file E url storage_path custom_headers w))
       = (sent w ++ new)%list
       /\ Forall (fun r => Requests.target r = rewrite_url E url) new
       /\ forall (w0 w1 : World) (ext : string),
            os_makedirs E storage_path w = (Ok tt, w0) ->
            get_extension_from_url E (rewrite_url E url) w0 = (Ok ext, w1) ->
            exists headers : gmap string string,
              last new = Some (get_request (rewrite_url E url) headers).
Proof.
  intros minio_external minio_internal.
  split; [| split].
  - intros rest ->. unfold rewrite_url.
    fold minio_external; fold minio_internal.
    rewrite startswith_append, replace1_prefix by apply startswith_append.
    now rewrite drop_append.
  - intros Hns. unfold rewrite_url. fold minio_external. now rewrite Hns.
  - destruct (os_makedirs_run E storage_path w) as [[e Hm] | Hm].
    { exists []. rewrite (download_file_no_directory E _ _ custom_headers _ _ _ Hm).
      cbn [snd]. rewrite app_nil_r. split; [reflexivity |]. split; [constructor |].
      intros w0 w1 ext Hm'. rewrite Hm in Hm'. discriminate. }
    set (w0 := set_fs <[storage_path := Dir]> w) in *.
    pose proof (get_extension_world E (rewrite_url E url) w0) as Hw.
    destruct (get_extension_from_url E (rewrite_url E url) w0) as [[ext | e] w1] eqn:Hx;
      cbn [snd] in Hw.
    + pose proof (download_file_frame E url storage_path custom_headers w w0 w1 ext Hm Hx)
        as (Hs & _).
      destruct Hw as [-> | ->].
      * exists [get_request (rewrite_url E url) (outgoing_headers w0 custom_headers)].
        split; [exact Hs |]. split; [repeat constructor |].
        intros w0' w1' ext' _ _. eexists; reflexivity.
      * exists [head_request (rewrite_url E url);
                get_request (rewrite_url E url)
                  (outgoing_headers (probed (rewrite_url E url) w0) custom_headers)].
        split; [rewrite Hs; cbn [requested probed log_request sent w0 set_fs set_heap];
                now rewrite <- app_assoc |].
        split; [repeat constructor |].
        intros w0' w1' ext' _ _. eexists; reflexivity.
    + rewrite (download_file_unresolved E _ _ custom_headers _ _ _ _ Hm Hx); cbn [snd].
      destruct Hw as [-> | ->].
      * exists []. rewrite app_nil_r. split; [reflexivity |]. split; [constructor |].
        intros w0' w1' ext' Hm' Hx'. rewrite Hm in Hm'. injection Hm' as <-.
        rewrite Hx in Hx'. discriminate.
      * exists [head_request (rewrite_url E url)].
        split; [reflexivity |]. split; [repeat constructor |].
        intros w0' w1' ext' Hm' Hx'. rewrite Hm in Hm'. injection Hm' as <-.
        rewrite Hx in Hx'. discriminate.
Qed.

Lemma external_prefix_is_rewritten_once_witness :
  rewrite_url (sample_env unreachable unreachable)
    "http://78.46.146.79:9000/b/http://78.46.146.79:9000/a.PNG"
  = "http://minio:9000/b/http://78.46.146.79:9000/a.PNG"
  /\ rewrite_url (sample_env unreachable unreachable) "http://x/http://78.46.146.79:9000/a.PNG"
     = "http://x/http://78.46.146.79:9000/a.PNG".
Proof.
  split.
  - apply (proj1 (external_prefix_is_rewritten_once
                    (sample_env unreachable unreachable)
                    "http://78.46.146.79:9000/b/http://78.46.146.79:9000/a.PNG"
                    "/tmp/" None empty_world)
             "/b/http://78.46.146.79:9000/a.PNG").
    reflexivity.
  - apply (proj1 (proj2 (external_prefix_is_rewritten_once
                           (sample_env unreachable unreachable)
                           "http://x/http://78.46.146.79:9000/a.PNG"
                           "/tmp/" None empty_world))).
    reflexivity.
Defined.

(** * Runs of the two functions *)

(** A path without extension and a probe answering [image/jpeg]. *)
Example extension_from_content_type_jpeg :
  fst (get_extension_from_url
         (sample_env (Ok (sample_response 200 "image/jpeg")) unreachable)
         "http://x/download" empty_world)
  = Ok ".jpg".
Proof. vm_compute; reflexivity. Qed.

(** A download that succeeds: the non-empty chunks end up in the file, in
    order, and the path returned ends in the extension. *)
Example download_writes_the_body :
  let outcome :=
    download_file (sample_env unreachable (Ok (sample_response 200 "image/png")))
      "http://x/a/b.PNG" "/tmp" None empty_world in
  fst outcome = Ok "/tmp/3f2b8c1e-5d4a-4e6f-9a7b-1c2d3e4f5a6b.png"
  /\ fs (snd outcome) !! "/tmp/3f2b8c1e-5d4a-4e6f-9a7b-1c2d3e4f5a6b.png"
     = Some (File [Byte.x01; Byte.x02; Byte.x03])
  /\ sent (snd outcome) = [get_request "http://x/a/b.PNG" default_headers].
Proof. vm_compute; repeat split. Qed.

(** A GET that cannot connect: the error comes back as it was raised. *)
Example download_connection_error :
  download_file (sample_env unreachable unreachable) "http://x/a.jpg" "/tmp/" None empty_world
  = (Raise (RequestException "ConnectionError"),
     requested "http://x/a.jpg" None (set_fs <["/tmp/" := Dir]> empty_world)).
Proof. vm_compute; reflexivity. Qed.

(** * Further properties of [get_extension_from_url] *)

Lemma urlparse_raises_value_error
  (check : string -> option string) (url : string) (e : Exception) :
  UrlParse.urlparse check url = Raise e -> exists msg : string, e = ValueError msg.
Proof.
  unfold UrlParse.urlparse, UrlParse.urlsplit, result_bind.
  repeat match goal with
         | |- context [let '(_, _) := ?x in _] => destruct x
         | |- context [if ?b then _ else _] => destruct b
         | |- context [match check ?n with _ => _ end] => destruct (check n)
         end;
    intros H; try discriminate; injection H as <-; eauto.
Qed.

(** X1.  [get_extension_from_url] never touches the file system and never
    changes a dict that exists; it sends nothing, or one HEAD to the URL it
    was given, carrying the default User-Agent alone; and whatever it
    raises is a [ValueError], as its docstring says: an error of the
    network never leaves it. *)
Theorem resolver_frame (E : Env) (url : string) (w : World) :
  fs (snd (get_extension_from_url E url w)) = fs w
  /\ keeps_dicts w (snd (get_extension_from_url E url w))
  /\ (sent (snd (get_extension_from_url E url w)) = sent w
      \/ sent (snd (get_extension_from_url E url w)) = (sent w ++ [head_request url])%list)
  /\ forall e : Exception,
       fst (get_extension_from_url E url w) = Raise e ->
       exists msg : string, e = ValueError msg.
Proof.
  destruct (UrlParse.urlparse (check_bracketed_netloc E) url) as [parsed | e0] eqn:Hp.
  - destruct (splitext_ext_dot (UrlParse.path parsed)) as [Hnone | Hdot].
    + rewrite (get_extension_from_probe E url parsed w Hp Hnone); cbn [fst snd].
      split; [reflexivity |]. split; [apply keeps_dicts_probed |].
      split; [right; reflexivity |].
      intros e He.
      destruct (head_reply E url default_headers) as [response | e1];
        [| injection He as <-; unfold undeterminable_extension; eauto].
      destruct (guess_extension E (content_type_of response)) as [ext |];
        [| injection He as <-; unfold undeterminable_extension; eauto].
      destruct (Str.truthy ext); [discriminate |].
      injection He as <-; unfold undeterminable_extension; eauto.
    + rewrite (get_extension_from_path E url parsed w Hp)
        by (intros H0; rewrite H0 in Hdot; discriminate).
      cbn [fst snd]. split; [reflexivity |]. split; [apply keeps_dicts_refl |].
      split; [left; reflexivity |]. intros e He; discriminate.
  - rewrite (get_extension_parse_error E url e0 w Hp); cbn [fst snd].
    split; [reflexivity |]. split; [apply keeps_dicts_refl |].
    split; [left; reflexivity |].
    intros e [= <-]. eapply urlparse_raises_value_error; eassumption.
Qed.

(** * Further properties of [download_file] *)

(** X2.  Whatever the outcome, [download_file] sends at most one HEAD and
    then at most one GET, both to the rewritten URL.  The HEAD carries the
    default User-Agent alone: the caller's custom headers are never sent
    with the probe, only with the GET. *)
Theorem requests_sent_by_download
  (E : Env) (url storage_path : string) (custom_headers : option loc) (w : World) :
  exists probes gets : list Requests.Request,
    sent (snd (download_file E url storage_path custom_headers w))
    = (sent w ++ probes ++ gets)%list
    /\ (probes = [] \/ probes = [head_request (rewrite_url E url)])
    /\ (gets = []
        \/ exists w1 : World,
             gets = [get_request (rewrite_url E url) (outgoing_headers w1 custom_headers)])
    /\ (forall e : Exception,
          fst (get_extension_from_url E (rewrite_url E url)
                 (set_fs <[storage_path := Dir]> w)) = Raise e ->
          gets = []).
Proof.
  destruct (os_makedirs_run E storage_path w) as [[e Hm] | Hm].
  { exists [], []. rewrite (download_file_no_directory E _ _ custom_headers _ _ _ Hm).
    cbn [snd]. rewrite !app_nil_r. repeat split; auto. }
  set (w0 := set_fs <[storage_path := Dir]> w) in *.
  pose proof (get_extension_world E (rewrite_url E url) w0) as Hw.
  destruct (get_extension_from_url E (rewrite_url E url) w0) as [[ext | e] w1] eqn:Hx;
    cbn [fst snd] in *.
  - pose proof (download_file_frame E url storage_path custom_headers w w0 w1 ext Hm Hx)
      as (Hs & _).
    destruct Hw as [-> | ->].
    + exists [], [get_request (rewrite_url E url) (outgoing_headers w0 custom_headers)].
      split; [exact Hs |]. split; [now left |]. split; [right; eauto |].
      intros e He; discriminate.
    + exists [head_request (rewrite_url E url)],
        [get_request (rewrite_url E url)
           (outgoing_headers (probed (rewrite_url E url) w0) custom_headers)].
      split; [rewrite Hs; cbn [requested probed log_request sent w0 set_fs set_heap];
              now rewrite <- app_assoc |].
      split; [now right |]. split; [right; eauto |].
      intros e He; discriminate.
  - rewrite (download_file_unresolved E _ _ custom_headers _ _ _ _ Hm Hx); cbn [snd].
    destruct Hw as [-> | ->].
    + exists [], []. rewrite !app_nil_r. repeat split; auto.
    + exists [head_request (rewrite_url E url)], []. rewrite app_nil_r.
      repeat split; auto.
Qed.







Lemma before_absent (c : ascii) (s : string) :
  Str.contains c s = false -> Str.before c s = s.
Proof.
  induction s as [| a s IH]; [reflexivity |].
  cbn [Str.contains Str.before]. intros H; apply orb_false_iff in H as [Ha Hs].
  rewrite Ha. now rewrite IH.
Qed.

Lemma before_append (c : ascii) (p r : string) :
  Str.contains c p = false -> Str.before c (p ++ String c r) = p.
Proof.
  induction p as [| a p IH]; cbn [Str.contains String.append Str.before].
  - now rewrite Ascii.eqb_refl.
  - intros H; apply orb_false_iff in H as [Ha Hp].
    rewrite Ha. now rewrite IH.
Qed.

(** X4.  When the path gives no extension and the HEAD is answered, the
    extension comes from the [content-type] of the answer, read up to its
    first [;] and without regard to case: it is the first extension the
    [mimetypes] table lists for that media type, lower-cased.  The status
    of the answer plays no part. *)
Theorem extension_from_media_type
  (E : Env) (url : string) (parsed : UrlParse.ParseResult) (w : World)
  (response : Requests.Response) (type tail ext : string) (others : list string) :
  UrlParse.urlparse (check_bracketed_netloc E) url = Ok parsed ->
  snd (OsPath.splitext (UrlParse.path parsed)) = EmptyString ->
  head_reply E url default_headers = Ok response ->
  Requests.headers response !! "content-type" = Some (type ++ tail) ->
  Str.contains ";" type = false ->
  tail = EmptyString \/ Str.startswith ";" tail = true ->
  types_map_inv E !! Str.lower type = Some (ext :: others) ->
  ext <> EmptyString ->
  get_extension_from_url E url w = (Ok (Str.lower ext), probed url w).
Proof.
  intros Hp Hnone Hh Hct Htype Htail Htable Hext.
  rewrite (get_extension_from_probe E url parsed w Hp Hnone), Hh.
  assert (Hcut : content_type_of response = type).
  { unfold content_type_of. rewrite Hct; cbn [default].
    destruct Htail as [-> | Hsemi].
    - replace (type ++ "") with type
        by (clear; induction type as [| a t IH]; cbn; [reflexivity | now rewrite <- IH]).
      now apply before_absent.
    - destruct tail as [| a tail]; [discriminate |].
      cbn [Str.startswith] in Hsemi.
      destruct (Ascii.eqb ";" a) eqn:Ha; [| discriminate].
      apply Ascii.eqb_eq in Ha; subst a. now apply before_append. }
  rewrite Hcut. unfold guess_extension, guess_all_extensions.
  rewrite Htable; cbn [default id].
  apply truthy_nonempty in Hext. now rewrite Hext.
Qed.

Lemma extension_from_media_type_witness :
  get_extension_from_url
    (sample_env (Ok (sample_response 503 "IMAGE/JPEG; charset=binary")) unreachable)
    "http://x/download" empty_world
  = (Ok ".jpg", probed "http://x/download" empty_world).
Proof.
  apply (extension_from_media_type
           (sample_env (Ok (sample_response 503 "IMAGE/JPEG; charset=binary")) unreachable)
           "http://x/download"
           (UrlParse.mkParseResult "http" "x" "/download" "" "" "") empty_world
           (sample_response 503 "IMAGE/JPEG; charset=binary")
           "IMAGE/JPEG" "; charset=binary" ".jpg" [".jpe"; ".jpeg"]).
  - vm_compute; reflexivity.
  - reflexivity.
  - reflexivity.
  - vm_compute; reflexivity.
  - reflexivity.
  - right; reflexivity.
  - vm_compute; reflexivity.
  - discriminate.
Defined.

Lemma rewrite_url_prefix (E : Env) (rest : string) :
  rewrite_url E (environ_get E "S3_PUBLIC_URL" "http://78.46.146.79:9000" ++ rest)
  = environ_get E "S3_ENDPOINT_URL" "http://minio:9000" ++ rest.
Proof.
  unfold rewrite_url.
  rewrite startswith_append, replace1_prefix by apply startswith_append.
  now rewrite drop_append.
Qed.

(** X5.  The extension is resolved on the rewritten URL, outside the
    [try]: if it cannot be resolved, [download_file] raises the resolver's
    error as it is, and its message names the rewritten URL, so for an
    external link the internal address and not the one the caller passed.
    Nothing but the probe was sent and the handler did not run. *)
Theorem unresolved_download_names_rewritten_url
  (E : Env) (rest storage_path : string) (custom_headers : option loc)
  (w w0 : World) (parsed : UrlParse.ParseResult) :
  let minio_external := environ_get E "S3_PUBLIC_URL" "http://78.46.146.79:9000" in
  let minio_internal := environ_get E "S3_ENDPOINT_URL" "http://minio:9000" in
  os_makedirs E storage_path w = (Ok tt, w0) ->
  UrlParse.urlparse (check_bracketed_netloc E) (minio_internal ++ rest) = Ok parsed ->
  snd (OsPath.splitext (UrlParse.path parsed)) = EmptyString ->
  probe_gives_nothing E (minio_internal ++ rest) ->
  download_file E (minio_external ++ rest) storage_path custom_headers w
  = (Raise (ValueError
             ("Could not determine file extension from URL: " ++ minio_internal ++ rest)),
     probed (minio_internal ++ rest) w0).
Proof.
  intros minio_external minio_internal Hm Hp Hnone Hprobe.
  assert (Hx : get_extension_from_url E (rewrite_url E (minio_external ++ rest)) w0
               = (Raise (undeterminable_extension (minio_internal ++ rest)),
                  probed (minio_internal ++ rest) w0)).
  { unfold minio_external. rewrite rewrite_url_prefix. fold minio_internal.
    rewrite (get_extension_from_probe E _ parsed w0 Hp Hnone).
    unfold probe_gives_nothing in Hprobe.
    destruct (head_reply E (minio_internal ++ rest) default_headers) as [response | e];
      [| reflexivity].
    destruct (guess_extension E (content_type_of response)) as [ext |]; [| reflexivity].
    now rewrite Hprobe. }
  rewrite (download_file_unresolved E _ _ custom_headers _ _ _ _ Hm Hx).
  reflexivity.
Qed.

Lemma unresolved_download_names_rewritten_url_witness :
  download_file (sample_env unreachable unreachable)
    "http://78.46.146.79:9000/bucket/object" "/tmp/" None empty_world
  = (Raise (ValueError
             "Could not determine file extension from URL: http://minio:9000/bucket/object"),
     probed "http://minio:9000/bucket/object" (set_fs <["/tmp/" := Dir]> empty_world)).
Proof.
  apply (unresolved_download_names_rewritten_url
           (sample_env unreachable unreachable) "/bucket/object" "/tmp/" None
           empty_world (set_fs <["/tmp/" := Dir]> empty_world)
           (UrlParse.mkParseResult "http" "minio:9000" "/bucket/object" "" "" "")).
  - vm_compute; reflexivity.
  - vm_compute; reflexivity.
  - reflexivity.
  - exact I.
Defined.

(** * Where the path extension comes from *)

Lemma rfind_aux_after (c : ascii) (s : string) :
  forall (pos last : Z) (n : nat),
    Str.rfind_aux c s pos last < pos + Z.of_nat n ->
    Str.contains c (Str.drop n s) = false.
Proof.
  induction s as [| a s IH]; intros pos last n Hlt; [now destruct n |].
  cbn [Str.rfind_aux] in Hlt.
  destruct n as [| n].
  - cbn [Str.drop Str.contains].
    destruct (Ascii.eqb a c) eqn:Hac.
    + exfalso.
      destruct (rfind_aux_spec c s (pos + 1) pos) as [H | [H _]]; lia.
    + cbn [orb]. apply (IH (pos + 1) last 0%nat). lia.
  - cbn [Str.drop]. apply (IH (pos + 1) (if Ascii.eqb a c then pos else last) n). lia.
Qed.

Lemma lower_char_slash (a : ascii) :
  Ascii.eqb (Str.lower_char a) "/" = Ascii.eqb a "/".
Proof. destruct a as [[] [] [] [] [] [] [] []]; vm_compute; reflexivity. Qed.

Lemma contains_slash_lower (s : string) :
  Str.contains "/" (Str.lower s) = Str.contains "/" s.
Proof.
  induction s as [| a s IH]; [reflexivity |].
  cbn [Str.lower Str.contains]. now rewrite lower_char_slash, IH.
Qed.

(** The extension [os.path.splitext] cuts off lies after the last
    separator. *)
Lemma splitext_ext_slashless (p : string) :
  Str.contains "/" (snd (OsPath.splitext p)) = false.
Proof.
  unfold OsPath.splitext.
  destruct (_ && _) eqn:Hc; [| reflexivity].
  apply andb_true_iff in Hc as [Hlt _]; apply Z.ltb_lt in Hlt.
  pose proof (rfind_range "/" p) as Hsep.
  cbn [snd]. unfold Str.slice_from, Str.bound.
  destruct (Z.ltb_spec (Str.rfind "." p) 0) as [Hneg | Hpos]; [lia |].
  apply (rfind_aux_after "/" p 0 (-1)). fold (Str.rfind "/" p). lia.
Qed.

Lemma guess_extension_slashless (E : Env) (type ext : string) :
  types_slashless E -> guess_extension E type = Some ext -> Str.contains "/" ext = false.
Proof.
  intros Hd; unfold guess_extension, guess_all_extensions.
  destruct (types_map_inv E !! Str.lower type) as [exts |] eqn:Hl; cbn [default];
    [| discriminate].
  destruct exts as [| e exts]; [discriminate |].
  intros [= ->]. apply (Hd _ _ _ Hl). apply list_elem_of_here.
Qed.

Lemma sample_types_slashless (head get : result Requests.Response) :
  types_slashless (sample_env head get).
Proof.
  intros type exts ext Hl Hin. cbn [sample_env types_map_inv] in Hl.
  unfold sample_types in Hl. cbn [list_to_map foldr uncurry] in Hl.
  apply lookup_insert_Some in Hl as [[_ <-] | [_ Hl]].
  - apply list_elem_of_In in Hin; cbn [In] in Hin.
    destruct Hin as [<- | [<- | [<- | []]]]; reflexivity.
  - apply lookup_insert_Some in Hl as [[_ <-] | [_ Hl]].
    + apply list_elem_of_In in Hin; cbn [In] in Hin.
      destruct Hin as [<- | [<- | []]]; reflexivity.
    + rewrite lookup_empty in Hl; discriminate.
Qed.

Lemma join_single_segment (a b : string) :
  Str.contains "/" b = false ->
  OsPath.join a b = a ++ b \/ OsPath.join a b = a ++ "/" ++ b.
Proof.
  intros Hb. unfold OsPath.join.
  assert (Hs : Str.startswith "/" b = false).
  { destruct b as [| x b]; [reflexivity |].
    cbn [Str.contains] in Hb. apply orb_false_iff in Hb as [Hx _].
    cbn [Str.startswith]. rewrite Ascii.eqb_sym, Hx. reflexivity. }
  rewrite Hs. destruct (negb (Str.truthy a) || Str.endswith "/" a); [now left | now right].
Qed.

(** X6.  No URL can steer the download out of the storage directory: the
    extension [get_extension_from_url] returns never holds a path
    separator (given a [mimetypes] table free of them), so with an
    identifier free of separators the local file name is the storage path
    followed by one single segment, identifier and extension. *)
Theorem extension_has_no_separator
  (E : Env) (url storage_path ext : string) (w : World) :
  types_slashless E ->
  fst (get_extension_from_url E url w) = Ok ext ->
  Str.contains "/" ext = false
  /\ (Str.contains "/" (uuid4 E) = false ->
      Str.contains "/" (uuid4 E ++ ext) = false
      /\ (local_filename E storage_path ext = storage_path ++ uuid4 E ++ ext
          \/ local_filename E storage_path ext = storage_path ++ "/" ++ uuid4 E ++ ext)).
Proof.
  intros Htable Hok.
  assert (Hext : Str.contains "/" ext = false).
  { destruct (UrlParse.urlparse (check_bracketed_netloc E) url) as [parsed | e] eqn:Hp.
    - destruct (splitext_ext_dot (UrlParse.path parsed)) as [Hnone | Hdot].
      + rewrite (get_extension_from_probe E url parsed w Hp Hnone) in Hok; cbn [fst] in Hok.
        destruct (head_reply E url default_headers) as [response | e]; [| discriminate].
        destruct (guess_extension E (content_type_of response)) as [x |] eqn:Hg;
          [| discriminate].
        destruct (Str.truthy x); [| discriminate].
        injection Hok as <-. rewrite contains_slash_lower.
        eapply guess_extension_slashless; eassumption.
      + rewrite (get_extension_from_path E url parsed w Hp) in Hok
          by (intros H0; rewrite H0 in Hdot; discriminate).
        cbn [fst] in Hok. injection Hok as <-.
        rewrite contains_slash_lower. apply splitext_ext_slashless.
    - rewrite (get_extension_parse_error E url e w Hp) in Hok. discriminate. }
  split; [exact Hext |].
  intros Hid.
  assert (Hname : Str.contains "/" (uuid4 E ++ ext) = false)
    by (rewrite contains_append, Hid, Hext; reflexivity).
  split; [exact Hname |].
  unfold local_filename. now apply join_single_segment.
Qed.

Lemma extension_has_no_separator_witness :
  Str.contains "/" ".gz" = false
  /\ local_filename (sample_env unreachable unreachable) "/tmp" ".gz"
     = "/tmp/3f2b8c1e-5d4a-4e6f-9a7b-1c2d3e4f5a6b.gz".
Proof.
  destruct (extension_has_no_separator (sample_env unreachable unreachable)
              "http://x/a.b/../../etc/c.tar.GZ" "/tmp" ".gz" empty_world)
    as [Hext Hlocal].
  - apply sample_types_slashless.
  - vm_compute; reflexivity.
  - split; [exact Hext |].
    destruct Hlocal as [_ [H | H]]; [reflexivity | | exact H].
    vm_compute in H; discriminate.
Defined.

Lemma all_in_contains (chars s : string) (c : ascii) :
  Str.all_in chars s = true -> Str.contains c chars = false -> Str.contains c s = false.
Proof.
  intros Hall Hc. induction s as [| a s IH]; [reflexivity |].
  cbn [Str.all_in] in Hall. apply andb_true_iff in Hall as [Ha Hs].
  cbn [Str.contains]. rewrite (IH Hs), orb_false_r.
  destruct (Ascii.eqb a c) eqn:Hac; [| reflexivity].
  apply Ascii.eqb_eq in Hac; subst a. congruence.
Qed.

Lemma all_dots_snoc (dots : string) :
  Str.all_in "." dots = true ->
  dots <> EmptyString ->
  exists lead : string, dots = lead ++ "." /\ Str.all_in "." lead = true.
Proof.
  induction dots as [| a dots IH]; intros Hall Hne; [now elim Hne |].
  cbn [Str.all_in Str.contains] in Hall. apply andb_true_iff in Hall as [Ha Hd].
  rewrite orb_false_r in Ha. apply Ascii.eqb_eq in Ha; subst a.
  destruct dots as [| b dots].
  - exists EmptyString. split; reflexivity.
  - destruct (IH Hd) as (lead & Hl & Hall); [discriminate |].
    exists (String "." lead). split.
    + cbn [String.append]. now rewrite <- Hl.
    + cbn [Str.all_in Str.contains]. now rewrite Hall.
Qed.

Lemma rfind_aux_upper (c : ascii) (s : string) :
  forall pos last : Z,
    Str.rfind_aux c s pos last <= Z.max last (pos + Str.len s - 1).
Proof.
  induction s as [| a s IH]; intros pos last.
  - cbn [Str.rfind_aux]. lia.
  - cbn [Str.rfind_aux].
    pose proof (IH (pos + 1) (if Ascii.eqb a c then pos else last)) as H.
    unfold Str.len in *; cbn [String.length].
    destruct (Ascii.eqb a c); lia.
Qed.

(** A last segment made of leading dots and a stem without dots has no
    extension, and dots in the directories before it do not count. *)
Lemma splitext_no_extension (dir dots stem : string) :
  dir = EmptyString \/ Str.endswith "/" dir = true ->
  Str.all_in "." dots = true ->
  Str.contains "." stem = false ->
  Str.contains "/" stem = false ->
  OsPath.splitext (dir ++ dots ++ stem) = (dir ++ dots ++ stem, EmptyString).
Proof.
  intros Hdir Hdots Hstem Hsep. unfold OsPath.splitext.
  assert (Hs : Str.rfind "/" (dir ++ dots ++ stem) = Str.len dir - 1).
  { unfold Str.rfind. rewrite rfind_aux_append.
    rewrite rfind_aux_absent
      by (rewrite contains_append, Hsep, (all_in_contains "." dots "/" Hdots eq_refl);
          reflexivity).
    destruct Hdir as [-> | Hdir]; [reflexivity |].
    rewrite (rfind_aux_endswith _ _ _ _ Hdir); lia. }
  rewrite Hs.
  destruct (String.string_dec dots EmptyString) as [-> | Hne].
  - assert (Hd : Str.rfind "." (dir ++ "" ++ stem) <= Str.len dir - 1).
    { unfold Str.rfind. cbn [String.append]. rewrite rfind_aux_append.
      rewrite (rfind_aux_absent _ _ _ _ Hstem).
      pose proof (rfind_aux_upper "." dir 0 (-1)) as Hu.
      assert (0 <= Str.len dir) by (unfold Str.len; lia). lia. }
    replace (Str.len dir - 1 <? Str.rfind "." (dir ++ "" ++ stem)) with false
      by (symmetry; apply Z.ltb_ge; exact Hd).
    reflexivity.
  - destruct (all_dots_snoc dots Hdots Hne) as (lead & -> & Hlead).
    assert (Hd : Str.rfind "." (dir ++ (lead ++ ".") ++ stem) = Str.len (dir ++ lead)).
    { unfold Str.rfind.
      rewrite <- (append_assoc dir (lead ++ ".") stem), rfind_aux_append.
      rewrite (rfind_aux_absent _ _ _ _ Hstem).
      rewrite <- (append_assoc dir lead "."), rfind_aux_append. reflexivity. }
    rewrite Hd.
    assert (Hlen : Str.len (dir ++ lead) = Str.len dir + Z.of_nat (String.length lead))
      by (unfold Str.len; rewrite length_append; lia).
    replace (Str.len dir - 1 + 1) with (Str.len dir) by lia.
    replace (Z.to_nat (Str.len (dir ++ lead) - Str.len dir)) with (String.length lead)
      by lia.
    rewrite (append_assoc lead "." stem).
    rewrite splitext_scan_spec, Hlead. cbn [negb]. now rewrite andb_false_r.
Qed.

(** X7.  Only the last segment of the path can give an extension, and its
    leading dots do not count: when that segment is a run of dots (none,
    for a name without any dot) followed by a stem free of dots, as in
    [/v1.2/download] or [/conf.d/.bashrc], the path step finds nothing
    and the probe is sent, whatever dots the directories hold. *)
Theorem dots_outside_the_name_give_no_extension
  (E : Env) (url : string) (parsed : UrlParse.ParseResult) (dir dots stem : string)
  (w : World) :
  UrlParse.urlparse (check_bracketed_netloc E) url = Ok parsed ->
  UrlParse.path parsed = dir ++ dots ++ stem ->
  dir = EmptyString \/ Str.endswith "/" dir = true ->
  Str.all_in "." dots = true ->
  Str.contains "." stem = false ->
  Str.contains "/" stem = false ->
  snd (OsPath.splitext (UrlParse.path parsed)) = EmptyString
  /\ snd (get_extension_from_url E url w) = probed url w
  /\ sent (snd (get_extension_from_url E url w)) = (sent w ++ [head_request url])%list.
Proof.
  intros Hp Hpath Hdir Hdots Hstem Hsep.
  assert (Hnone : snd (OsPath.splitext (UrlParse.path parsed)) = EmptyString)
    by (rewrite Hpath, (splitext_no_extension dir dots stem) by assumption; reflexivity).
  split; [exact Hnone |].
  rewrite (get_extension_from_probe E url parsed w Hp Hnone). split; reflexivity.
Qed.

Lemma dots_outside_the_name_give_no_extension_witness :
  snd (OsPath.splitext "/conf.d/.bashrc") = EmptyString
  /\ sent (snd (get_extension_from_url (sample_env unreachable unreachable)
                  "http://x/conf.d/.bashrc" empty_world))
     = [head_request "http://x/conf.d/.bashrc"].
Proof.
  destruct (dots_outside_the_name_give_no_extension
              (sample_env unreachable unreachable) "http://x/conf.d/.bashrc"
              (UrlParse.mkParseResult "http" "x" "/conf.d/.bashrc" "" "" "")
              "/conf.d/" "." "bashrc" empty_world)
    as (Hnone & _ & Hsent).
  - vm_compute; reflexivity.
  - reflexivity.
  - right; reflexivity.
  - reflexivity.
  - reflexivity.
  - reflexivity.
  - split; [exact Hnone | exact Hsent].
Defined.

(** * What [urlparse] makes of an http(s) URL *)














Lemma resolver_frame_witness :
  let outcome :=
    get_extension_from_url (sample_env unreachable unreachable) "http://x/download"
      caller_world in
  fs (snd outcome) = fs caller_world
  /\ heap (snd outcome) !! 1%positive = Some caller_headers
  /\ exists msg : string, fst outcome = Raise (ValueError msg).
Proof.
  intros outcome.
  destruct (resolver_frame (sample_env unreachable unreachable) "http://x/download"
              caller_world) as (Hfs & Hdicts & _ & Herr).
  split; [exact Hfs |]. split.
  - apply Hdicts. vm_compute; reflexivity.
  - destruct (Herr (undeterminable_extension "http://x/download")) as (msg & Hmsg).
    + vm_compute; reflexivity.
    + exists msg. rewrite <- Hmsg. vm_compute; reflexivity.
Defined.

Lemma requests_sent_by_download_witness :
  exists probes gets : list Requests.Request,
    sent (snd (download_file (sample_env (Ok (sample_response 200 "image/jpeg"))
                                (Ok (sample_response 200 "image/jpeg")))
                 "http://x/download" "/tmp/" (Some 1%positive) caller_world))
    = (probes ++ gets)%list
    /\ (probes = [] \/ probes = [head_request "http://x/download"]).
Proof.
  destruct (requests_sent_by_download
              (sample_env (Ok (sample_response 200 "image/jpeg"))
                 (Ok (sample_response 200 "image/jpeg")))
              "http://x/download" "/tmp/" (Some 1%positive) caller_world)
    as (probes & gets & Hsent & Hprobes & _).
  exists probes, gets. split; [exact Hsent | exact Hprobes].
Defined.

(** X9.  An external base set to the empty string matches every URL: with
    [S3_PUBLIC_URL] empty, [download_file] works on the internal base
    followed by the whole URL it was given, for every URL, and that is the
    address every request of the call is sent to. *)
Theorem empty_external_base_prefixes_every_url
  (E : Env) (url storage_path : string) (custom_headers : option loc) (w : World) :
  environ E !! "S3_PUBLIC_URL" = Some EmptyString ->
  rewrite_url E url = environ_get E "S3_ENDPOINT_URL" "http://minio:9000" ++ url
  /\ exists probes gets : list Requests.Request,
       sent (snd (download_file E url storage_path custom_headers w))
       = (sent w ++ probes ++ gets)%list
       /\ Forall (fun r => Requests.target r
                           = environ_get E "S3_ENDPOINT_URL" "http://minio:9000" ++ url)
            (probes ++ gets).
Proof.
  intros Henv.
  assert (Hr : rewrite_url E url
               = environ_get E "S3_ENDPOINT_URL" "http://minio:9000" ++ url).
  { pose proof (rewrite_url_prefix E url) as H.
    unfold environ_get at 1 in H. rewrite Henv in H. exact H. }
  split; [exact Hr |].
  rewrite <- Hr.
  destruct (os_makedirs_run E storage_path w) as [[e Hm] | Hm].
  { exists [], []. rewrite (download_file_no_directory E _ _ custom_headers _ _ _ Hm).
    cbn [snd]. rewrite !app_nil_r. split; [reflexivity | constructor]. }
  set (w0 := set_fs <[storage_path := Dir]> w) in *.
  pose proof (get_extension_world E (rewrite_url E url) w0) as Hw.
  destruct (get_extension_from_url E (rewrite_url E url) w0) as [[ext | e] w1] eqn:Hx;
    cbn [snd] in Hw.
  - pose proof (download_file_frame E url storage_path custom_headers w w0 w1 ext Hm Hx)
      as (Hs & _).
    destruct Hw as [-> | ->].
    + exists [], [get_request (rewrite_url E url) (outgoing_headers w0 custom_headers)].
      split; [exact Hs | repeat constructor].
    + exists [head_request (rewrite_url E url)],
        [get_request (rewrite_url E url)
           (outgoing_headers (probed (rewrite_url E url) w0) custom_headers)].
      split; [rewrite Hs; cbn [requested probed log_request sent w0 set_fs set_heap];
              now rewrite <- app_assoc | repeat constructor].
  - rewrite (download_file_unresolved E _ _ custom_headers _ _ _ _ Hm Hx); cbn [snd].
    destruct Hw as [-> | ->].
    + exists [], []. rewrite !app_nil_r. split; [reflexivity | constructor].
    + exists [head_request (rewrite_url E url)], []. rewrite app_nil_r.
      split; [reflexivity | repeat constructor].
Qed.

Lemma empty_external_base_prefixes_every_url_witness :
  rewrite_url misconfigured_env "https://example.com/a.jpg"
  = "http://minio:9000https://example.com/a.jpg".
Proof.
  destruct (empty_external_base_prefixes_every_url misconfigured_env
              "https://example.com/a.jpg" "/tmp/" None empty_world) as [H _].
  - vm_compute; reflexivity.
  - exact H.
Defined.

(** X10.  An empty storage path never gets past line 73: [os.makedirs]
    raises, [download_file] raises that error, and the world is as it was:
    no request sent, no file made, no dict made. *)
Theorem empty_storage_path_fails
  (E : Env) (url : string) (custom_headers : option loc) (w : World) :
  exists e : Exception,
    download_file E url EmptyString custom_headers w = (Raise e, w)
    /\ (makedirs_fault E EmptyString = None -> exists msg : string, e = OSError msg).
Proof.
  assert (Hm : exists e : Exception,
            os_makedirs E EmptyString w = (Raise e, w)
            /\ (makedirs_fault E EmptyString = None -> exists msg : string, e = OSError msg)).
  { unfold os_makedirs.
    destruct (makedirs_fault E EmptyString) as [e |].
    - exists e. split; [reflexivity | discriminate].
    - destruct (fs w !! EmptyString) as [[| content] |]; cbn [Str.truthy];
        eexists; (split; [reflexivity | eauto]). }
  destruct Hm as (e & Hm & He).
  exists e. split; [| exact He].
  now apply download_file_no_directory.
Qed.

Lemma empty_storage_path_fails_witness :
  download_file (sample_env unreachable (Ok (sample_response 200 "image/jpeg")))
    "http://x/a.jpg" "" None empty_world
  = (Raise (OSError "FileNotFoundError"), empty_world).
Proof.
  destruct (empty_storage_path_fails
              (sample_env unreachable (Ok (sample_response 200 "image/jpeg")))
              "http://x/a.jpg" None empty_world) as (e & Hr & He).
  rewrite Hr. vm_compute in Hr. injection Hr as <-. reflexivity.
Defined.
